(** * The end-to-end test runners of fresh-scaffold

    A shallow embedding of [src/test-runner.ts].  That file holds two
    scripts: the first runner ([runTests], lines 1-88) and the flexible
    runner ([main] with [cleanup], lines 89-285).

    - Strings are JavaScript strings: sequences of UTF-16 code units.
    - [Deno.env] is a finite map from variable names to strings.
    - The operating system (spawning, the clock, signals to children) is a
      record of oracles, [World]; whatever the event loop delivers to the
      script (a promise settling, a timer firing, a signal) is an [input].
    - Each script is a transition function over its suspension points
      (its [await]s); a run is the fold of that function over a schedule
      of inputs. *)

From Stdlib Require Import ZArith QArith Qminmax Qpower List Bool Ascii String Lia Lqa.
From stdpp Require Import gmap strings.

Local Open Scope Z_scope.

(** ** JavaScript strings *)

Module Js.

(** A string is its sequence of UTF-16 code units. *)
Definition jsstring : Type := list N.

(** A literal written in ASCII. *)
Definition js (s : string) : jsstring :=
  List.map N_of_ascii (list_ascii_of_string s).

(** The characters matched by [\s] in a regular expression without the
    [u] flag, which are also the ones [String.prototype.trim] strips:
    WhiteSpace and LineTerminator of ECMAScript. *)
Definition is_ws (c : N) : bool :=
  ((9 <=? c) && (c <=? 13) ||
   (c =? 32) || (c =? 160) || (c =? 5760) ||
   (8192 <=? c) && (c <=? 8202) ||
   (c =? 8232) || (c =? 8233) || (c =? 8239) || (c =? 8287) ||
   (c =? 12288) || (c =? 65279))%N.

(** [Boolean(s)], and a string used as a condition: non-empty. *)
Definition truthy (s : jsstring) : bool :=
  match s with [] => false | _ :: _ => true end.

(** [a || b] on strings. *)
Definition or_else (a b : jsstring) : jsstring :=
  if truthy a then a else b.

Fixpoint trimStart (s : jsstring) : jsstring :=
  match s with
  | [] => []
  | c :: r => if is_ws c then trimStart r else s
  end.

Definition trimEnd (s : jsstring) : jsstring := rev (trimStart (rev s)).

(** [s.trim()] *)
Definition trim (s : jsstring) : jsstring := trimEnd (trimStart s).

(** [s.split(/\s+/)].  The separators are the maximal runs of white-space
    characters; the result lists the pieces between them, the first and
    the last included even when they are empty, so that the empty string
    splits into one empty piece.  [insep] tells that the previous
    character belonged to a separator, [cur] is the piece read since the
    last separator. *)
Fixpoint split_go (insep : bool) (cur : jsstring) (s : jsstring)
  : list jsstring :=
  match s with
  | [] => [cur]
  | c :: r =>
      if is_ws c
      then (if insep then split_go true [] r else cur :: split_go true [] r)
      else split_go false (cur ++ [c]) r
  end.

Definition split_ws (s : jsstring) : list jsstring := split_go false [] s.

(** [a.filter(Boolean)] on an array of strings. *)
Definition filter_Boolean (a : list jsstring) : list jsstring :=
  List.filter truthy a.

End Js.

Import Js.

(** ** Configuration (lines 108-129) *)

Section Config.

(** [Deno.env] *)
Variable environ : gmap string jsstring.

(** [const env = (k, d = "") => Deno.env.get(k) ?? d] *)
Definition env (k : string) (d : jsstring) : jsstring :=
  match environ !! k with
  | Some v => v
  | None => d
  end.

Definition BUILD_CMD_RAW : jsstring :=
  trim (env "BUILD_CMD" (js "deno run -A dev.ts build")).
Definition SERVE_CMD_RAW : jsstring :=
  trim (env "SERVE_CMD" (js "deno serve -A _fresh/server.js")).
Definition TASK_CMD_RAW : jsstring := env "TASK_CMD" [].
Definition TEST_CMD_RAW : jsstring := env "TEST_CMD" (js "deno task test:e2e").

(** [raw.split(/\s+/).filter(Boolean)] *)
Definition parseCmd (raw : jsstring) : list jsstring :=
  filter_Boolean (split_ws raw).

(** [Boolean(BUILD_CMD_RAW || SERVE_CMD_RAW)] *)
Definition directMode : bool := truthy (or_else BUILD_CMD_RAW SERVE_CMD_RAW).

(** [undefined] is [None]. *)
Definition BUILD_CMD : option (list jsstring) :=
  if truthy BUILD_CMD_RAW then Some (parseCmd BUILD_CMD_RAW) else None.
Definition SERVE_CMD : option (list jsstring) :=
  if truthy SERVE_CMD_RAW then Some (parseCmd SERVE_CMD_RAW) else None.
Definition TASK_CMD : list jsstring := parseCmd TASK_CMD_RAW.
Definition TEST_CMD : list jsstring := parseCmd TEST_CMD_RAW.

End Config.

(** ** The operating system as seen by the scripts *)

(** A process id, a JavaScript number. *)
Definition pid : Type := Z.

Inductive signal : Type := SIGTERM | SIGKILL.

(** The places of a script that create a child process. *)
Inductive site : Type := BuildSite | ServerSite | TestSite.

(** The synchronous answers of the operating system.
    - [spawn at prog args]: [new Deno.Command(prog, {args}).spawn()] at
      the site [at] gives a child with this pid, or throws ([None]);
    - [now k]: the value of the [k]-th call of [Date.now()];
    - [sigkill p]: [Deno.kill(p, "SIGKILL")] returns ([true]) or throws
      ([false], for one: no such process). *)
Record World : Type := {
  spawn : site -> jsstring -> list jsstring -> option pid;
  now : nat -> Z;
  sigkill : pid -> bool
}.

(** What a script does to the outside, in order.  [EKill p sig] is a
    call that sends [sig] to the child [p], whether it then throws or
    not; [ECleanup] marks an entry into [cleanup]; [EExit] is a call of
    [Deno.exit]; console output is left out except for the progress line
    of [waitForServer]. *)
Inductive event : Type :=
| ESpawn (at_site : site) (cmd : list jsstring) (child : option pid)
| EProbe
| ESleep (ms : Q)                 (* a timer is set and awaited *)
| EProgress (attempt : nat)
| ECleanup (exitCode : Z)
| EKill (p : pid) (sig : signal)
| EExit (code : Z).

(** What the event loop delivers to a script, one input for each turn.
    Of the signals, SIGINT and SIGTERM that arrive while the script is
    suspended at an [await] are inputs: these are the two the second
    runner listens to (lines 254-255).  A signal of another kind, and a
    signal that arrives inside a turn (between the spawn of line 241 or
    244 and line 254, say), end the process where it stands; such runs
    are outside this model. *)
Inductive input : Type :=
| Signal                        (* SIGINT or SIGTERM reaches the runner
                                   while it is suspended at an [await] *)
| BuildExited (success : bool)  (* the build's [status] resolves *)
| FetchSettled (ok : bool)      (* the probe: [res.ok], [false] on a network error *)
| BackoffElapsed                (* the timer between two probes *)
| TestExited (success : bool)   (* the test command's [status] resolves *)
| ServerExited                  (* the server's [status] resolves *)
| GraceElapsed                  (* the 5000 ms timer of [cleanup] *)
| PauseElapsed.                 (* the 200 ms timer of [cleanup] *)

(** How the process ended: [Deno.exit(code)] (or falling off the end of
    the module, code 0, or an uncaught error, code 1), or the default
    action of a signal nobody listens to. *)
Inductive outcome : Type := Exited (code : Z) | KilledBySignal.

(** [spawnChild(cmd)] (lines 131-138).  [cmd[0]] of an empty command is
    [undefined], which [spawn()] rejects with a [TypeError] before any
    process is created. *)
Definition spawnChild (w : World) (at_site : site) (cmd : list jsstring)
  : option pid :=
  match cmd with
  | [] => None
  | prog :: args => spawn w at_site prog args
  end.

(** [Math.min(200 * Math.pow(1.25, attempt), 2000)] (line 162).  A number
    is a rational here: below the cap, every value of this expression is
    a dyadic rational that a double holds exactly. *)
Definition backoff (attempt : nat) : Q :=
  Qmin (200 * Qpower 1.25 (Z.of_nat attempt)) 2000.

(** ** The flexible runner (lines 89-285) *)

Module Flexible.

(** Where [main] is suspended. *)
Inductive main_pc : Type :=
| AwaitBuild                                (* line 142, called from 227 *)
| AwaitFetch (start : Z) (attempt : nat)    (* line 147, called from 158 *)
| AwaitBackoff (start : Z) (attempt : nat)  (* line 163 *)
| AwaitTest                                 (* line 268 *)
| Returned.                                 (* [return cleanup(..)] *)

(** Where an invocation of [cleanup] that went past its guard is
    suspended. *)
Inductive cleanup_pc : Type :=
| AwaitRace      (* line 189 *)
| AwaitPause     (* line 197 *)
| AwaitFinal.    (* line 205 *)

(** The module-level variables [serverChild] and [cleaned], the signal
    listeners, the suspended control flows, and what happened so far.
    [cleanups] holds one entry, with its [exitCode], for every
    invocation of [cleanup] that is suspended. *)
Record state : Type := {
  cleaned : bool;
  serverChild : option pid;
  listening : bool;
  server_exited : bool;
  at_main : main_pc;
  cleanups : list (cleanup_pc * Z);
  finished : option outcome;
  out : list event
}.

Definition emit (e : event) (s : state) : state :=
  {| cleaned := cleaned s; serverChild := serverChild s;
     listening := listening s; server_exited := server_exited s;
     at_main := at_main s; cleanups := cleanups s; finished := finished s;
     out := out s ++ [e] |}.

Definition set_cleaned (s : state) : state :=
  {| cleaned := true; serverChild := serverChild s;
     listening := listening s; server_exited := server_exited s;
     at_main := at_main s; cleanups := cleanups s; finished := finished s;
     out := out s |}.

Definition set_serverChild (p : pid) (s : state) : state :=
  {| cleaned := cleaned s; serverChild := Some p;
     listening := listening s; server_exited := server_exited s;
     at_main := at_main s; cleanups := cleanups s; finished := finished s;
     out := out s |}.

Definition set_listening (s : state) : state :=
  {| cleaned := cleaned s; serverChild := serverChild s;
     listening := true; server_exited := server_exited s;
     at_main := at_main s; cleanups := cleanups s; finished := finished s;
     out := out s |}.

Definition set_server_exited (s : state) : state :=
  {| cleaned := cleaned s; serverChild := serverChild s;
     listening := listening s; server_exited := true;
     at_main := at_main s; cleanups := cleanups s; finished := finished s;
     out := out s |}.

Definition set_main (m : main_pc) (s : state) : state :=
  {| cleaned := cleaned s; serverChild := serverChild s;
     listening := listening s; server_exited := server_exited s;
     at_main := m; cleanups := cleanups s; finished := finished s;
     out := out s |}.

Definition set_cleanups (l : list (cleanup_pc * Z)) (s : state) : state :=
  {| cleaned := cleaned s; serverChild := serverChild s;
     listening := listening s; server_exited := server_exited s;
     at_main := at_main s; cleanups := l; finished := finished s;
     out := out s |}.

Definition set_finished (o : outcome) (s : state) : state :=
  {| cleaned := cleaned s; serverChild := serverChild s;
     listening := listening s; server_exited := server_exited s;
     at_main := at_main s; cleanups := cleanups s; finished := Some o;
     out := out s |}.

(** [Deno.exit(code)]: the process is gone, nothing runs after it. *)
Definition exit (code : Z) (s : state) : state :=
  set_finished (Exited code) (emit (EExit code) s).

(** An invocation of [cleanup] either ends the process or is suspended
    at one of its [await]s. *)
Definition suspend (c : cleanup_pc) (exitCode : Z) (s : state) : state :=
  set_cleanups (cleanups s ++ [(c, exitCode)]) s.

Section Run.

Variable w : World.
Variable environ : gmap string jsstring.
(** [SERVER_TIMEOUT_MS], the number read from the environment, an
    integer here.  [FRESH_DEV_PORT] and [HEALTH_PATH] only tell where the
    probe goes; what the probe finds is an [input]. *)
Variable timeoutMs : Z.

(** Lines 203-215: [await serverChild.status] (an error is ignored),
    then [Deno.exit(exitCode)].  A status that has resolved already
    lets the invocation go on at once. *)
Definition await_final (exitCode : Z) (s : state) : state :=
  match serverChild s with
  | Some _ =>
      if server_exited s then exit exitCode s
      else suspend AwaitFinal exitCode s
  | None => exit exitCode s
  end.

(** Lines 191-201: after the race, [if (serverChild.pid)] kill by pid
    and pause; an error skips the pause. *)
Definition after_race (exitCode : Z) (s : state) : state :=
  match serverChild s with
  | Some p =>
      if p =? 0 then await_final exitCode s
      else
        let s := emit (EKill p SIGKILL) s in
        if sigkill w p then suspend AwaitPause exitCode s
        else await_final exitCode s
  | None => await_final exitCode s
  end.

(** [cleanup(exitCode)] up to its first [await] (lines 173-189). *)
Definition cleanup (exitCode : Z) (s : state) : state :=
  let s := emit (ECleanup exitCode) s in
  if cleaned s then exit exitCode s
  else
    let s := set_cleaned s in
    match serverChild s with
    | Some p =>
        let s := emit (EKill p SIGTERM) s in
        if server_exited s then after_race exitCode s
        else suspend AwaitRace exitCode s
    | None => exit exitCode s
    end.

(** [return cleanup(code)] in [main]. *)
Definition main_cleanup (exitCode : Z) (s : state) : state :=
  cleanup exitCode (set_main Returned s).

(** The test of the loop of [waitForServer] before the probe number
    [attempt] (lines 157-158); when it fails, the error thrown at line
    167 is caught at line 260. *)
Definition waitForServer_loop (start : Z) (attempt : nat) (s : state) : state :=
  if now w (S attempt) - start <? timeoutMs
  then emit EProbe (set_main (AwaitFetch start attempt) s)
  else main_cleanup 1 s.

(** Lines 241-259: spawn the server, install the signal listeners and
    enter [waitForServer]; an error of [spawnChild] is caught at line
    277. *)
Definition start_server (cmd : list jsstring) (s : state) : state :=
  let r := spawnChild w ServerSite cmd in
  let s := emit (ESpawn ServerSite cmd r) s in
  match r with
  | Some p => waitForServer_loop (now w 0) 0 (set_listening (set_serverChild p s))
  | None => main_cleanup 1 s
  end.

(** Lines 235-241: direct mode after the build step. *)
Definition serve (s : state) : state :=
  match SERVE_CMD environ with
  | None => main_cleanup 1 s
  | Some cmd => start_server cmd s
  end.

(** Lines 265-268. *)
Definition run_tests (s : state) : state :=
  let cmd := TEST_CMD environ in
  let r := spawnChild w TestSite cmd in
  let s := emit (ESpawn TestSite cmd r) s in
  match r with
  | Some _ => set_main AwaitTest s
  | None => main_cleanup 1 s
  end.

(** Before [main] runs. *)
Definition init : state :=
  {| cleaned := false; serverChild := None; listening := false;
     server_exited := false; at_main := Returned; cleanups := [];
     finished := None; out := [] |}.

(** [main()] up to its first [await] (lines 218-259). *)
Definition main : state :=
  if directMode environ then
    match BUILD_CMD environ with
    | Some cmd =>
        let r := spawnChild w BuildSite cmd in
        let s := emit (ESpawn BuildSite cmd r) init in
        match r with
        | Some _ => set_main AwaitBuild s
        | None => main_cleanup 1 s
        end
    | None => serve init
    end
  else start_server (TASK_CMD environ) init.

(** One suspended invocation of [cleanup] gets what it waits for. *)
Definition resume_cleanup (i : input) (t : cleanup_pc * Z) (s : state)
  : state :=
  match i, t with
  | ServerExited, (AwaitRace, c) => after_race c s
  | GraceElapsed, (AwaitRace, c) => after_race c s
  | PauseElapsed, (AwaitPause, c) => await_final c s
  | ServerExited, (AwaitFinal, c) => exit c s
  | _, (at_pc, c) => suspend at_pc c s
  end.

(** All of them, in the order of their invocation, until one ends the
    process. *)
Fixpoint resume_cleanups (i : input) (ts : list (cleanup_pc * Z))
    (s : state) : state :=
  match ts with
  | [] => s
  | t :: ts' =>
      match finished s with
      | Some _ => s
      | None => resume_cleanups i ts' (resume_cleanup i t s)
      end
  end.

Definition deliver (i : input) (s : state) : state :=
  resume_cleanups i (cleanups s) (set_cleanups [] s).

(** The suspended [main] gets what it waits for. *)
Definition resume_main (i : input) (s : state) : state :=
  match i, at_main s with
  | BuildExited ok, AwaitBuild =>
      if ok then serve s else main_cleanup 1 s
  | FetchSettled ok, AwaitFetch start attempt =>
      if ok then run_tests s
      else emit (ESleep (backoff attempt))
             (set_main (AwaitBackoff start attempt) s)
  | BackoffElapsed, AwaitBackoff start attempt =>
      let attempt := S attempt in
      let s := if (attempt mod 5 =? 0)%nat
               then emit (EProgress attempt) s else s in
      waitForServer_loop start attempt s
  | TestExited ok, AwaitTest =>
      main_cleanup (if ok then 0 else 1) s
  | _, _ => s
  end.

(** One turn of the event loop. *)
Definition step (s : state) (i : input) : state :=
  match finished s with
  | Some _ => s
  | None =>
      match i with
      | Signal =>
          if listening s then cleanup 1 s
          else set_finished KilledBySignal s
      | ServerExited =>
          match serverChild s with
          | Some _ =>
              if server_exited s then s
              else deliver ServerExited (set_server_exited s)
          | None => s
          end
      | GraceElapsed | PauseElapsed => deliver i s
      | _ => resume_main i s
      end
  end.

Definition run (sched : list input) : state := fold_left step sched main.

End Run.

End Flexible.

(** ** The first runner (lines 1-88) *)

Module Legacy.

Definition FRESH_DEV_PORT : Z := 8000.
Definition SERVER_TIMEOUT : Z := 30000.

(** Where [runTests] is suspended; [k] counts the turns of the loop of
    [waitForServer], to read the clock. *)
Inductive pc : Type :=
| AwaitFetch (start : Z) (k : nat)   (* line 17, called from 30 *)
| AwaitDelay (start : Z) (k : nat)   (* line 34 *)
| AwaitTest                          (* line 64 *)
| AwaitStatus.                       (* line 82 *)

Record state : Type := {
  serverProcess : option pid;
  server_exited : bool;
  at_pc : pc;
  finished : option outcome;
  out : list event
}.

Definition emit (e : event) (s : state) : state :=
  {| serverProcess := serverProcess s; server_exited := server_exited s;
     at_pc := at_pc s; finished := finished s; out := out s ++ [e] |}.

Definition set_pc (c : pc) (s : state) : state :=
  {| serverProcess := serverProcess s; server_exited := server_exited s;
     at_pc := c; finished := finished s; out := out s |}.

Definition set_server_exited (s : state) : state :=
  {| serverProcess := serverProcess s; server_exited := true;
     at_pc := at_pc s; finished := finished s; out := out s |}.

Definition set_finished (o : outcome) (s : state) : state :=
  {| serverProcess := serverProcess s; server_exited := server_exited s;
     at_pc := at_pc s; finished := Some o; out := out s |}.

(** [Deno.exit(code)] ends the process where it stands: a [finally]
    around it does not run. *)
Definition exit (code : Z) (s : state) : state :=
  set_finished (Exited code) (emit (EExit code) s).

Section Run.

Variable w : World.

(** The test of the loop of [waitForServer] (lines 29-30); the error
    thrown at line 38 is caught at line 72, which calls
    [Deno.exit(1)]. *)
Definition waitForServer_loop (start : Z) (k : nat) (s : state) : state :=
  if now w (S k) - start <? SERVER_TIMEOUT
  then emit EProbe (set_pc (AwaitFetch start k) s)
  else exit 1 s.

(** Lines 46-54.  The spawn is outside the [try]: when it throws, the
    module fails with an uncaught error, exit code 1. *)
Definition runTests : state :=
  let cmd := [js "deno"; js "task"; js "dev"] in
  let r := spawnChild w ServerSite cmd in
  let s := {| serverProcess := r; server_exited := false;
              at_pc := AwaitFetch (now w 0) 0; finished := None;
              out := [ESpawn ServerSite cmd r] |} in
  match r with
  | Some _ => waitForServer_loop (now w 0) 0 s
  | None => set_finished (Exited 1) s
  end.

(** The [finally] block (lines 78-83), reached from line 67 only.
    Line 81 calls [kill]; on a child whose status has resolved the call
    throws, and nothing catches that: the module fails with an uncaught
    error, exit code 1, without any [Deno.exit]. *)
Definition finally (s : state) : state :=
  match serverProcess s with
  | Some p =>
      let s := emit (EKill p SIGTERM) s in
      if server_exited s then set_finished (Exited 1) s
      else set_pc AwaitStatus s
  | None => set_finished (Exited 1) s
  end.

Definition step (s : state) (i : input) : state :=
  match finished s with
  | Some _ => s
  | None =>
      match i, at_pc s with
      | Signal, _ => set_finished KilledBySignal s
      | ServerExited, c =>
          if server_exited s then s
          else
            let s := set_server_exited s in
            match c with
            | AwaitStatus => set_finished (Exited 0) s
            | _ => s
            end
      | FetchSettled ok, AwaitFetch start k =>
          if ok then
            let cmd := [js "deno"; js "task"; js "test:e2e"] in
            let r := spawnChild w TestSite cmd in
            let s := emit (ESpawn TestSite cmd r) s in
            match r with
            | Some _ => set_pc AwaitTest s
            | None => exit 1 s
            end
          else set_pc (AwaitDelay start k) (emit (ESleep 1000) s)
      | BackoffElapsed, AwaitDelay start k => waitForServer_loop start (S k) s
      | TestExited success, AwaitTest =>
          if success then finally s else exit 1 s
      | _, _ => s
      end
  end.

Definition run (sched : list input) : state := fold_left step sched runTests.

End Run.

End Legacy.

(** ** Vocabulary of the properties *)

(** A string of white space only, and a word: a non-empty string without
    white space. *)
Definition blank (s : jsstring) : Prop := Forall (fun c => is_ws c = true) s.
Definition word (s : jsstring) : Prop :=
  s <> [] /\ Forall (fun c => is_ws c = false) s.

(** The end of the string or a white-space character comes next. *)
Definition at_gap (s : jsstring) : Prop :=
  match s with
  | [] => True
  | c :: _ => is_ws c = true
  end.

(** The specification of a command: [Splits raw ts] when [ts] lists, in
    order, the maximal runs of non-white-space characters of [raw], that
    is, [raw] split on runs of white space with the empty pieces
    dropped. *)
Inductive Splits : jsstring -> list jsstring -> Prop :=
| Splits_blank sp : blank sp -> Splits sp []
| Splits_word sp t rest ts :
    blank sp -> word t -> at_gap rest -> Splits rest ts ->
    Splits (sp ++ t ++ rest) (t :: ts).

(** The sleeps and the progress lines of a trace, in order, and counts. *)
Definition sleeps (tr : list event) : list Q :=
  flat_map (fun e => match e with ESleep ms => [ms] | _ => [] end) tr.

Definition progress_lines (tr : list event) : list nat :=
  flat_map (fun e => match e with EProgress k => [k] | _ => [] end) tr.

Definition is_probe (e : event) : bool :=
  match e with EProbe => true | _ => false end.

Definition is_sigterm (e : event) : bool :=
  match e with EKill _ SIGTERM => true | _ => false end.

Definition is_sigkill (e : event) : bool :=
  match e with EKill _ SIGKILL => true | _ => false end.

Definition is_kill (e : event) : bool :=
  match e with EKill _ _ => true | _ => false end.

Definition is_spawn_at (at_site : site) (e : event) : bool :=
  match e, at_site with
  | ESpawn BuildSite _ _, BuildSite => true
  | ESpawn ServerSite _ _, ServerSite => true
  | ESpawn TestSite _ _, TestSite => true
  | _, _ => false
  end.

Definition is_cleanup (e : event) : bool :=
  match e with ECleanup _ => true | _ => false end.

Definition count (f : event -> bool) (tr : list event) : nat :=
  length (List.filter f tr).

(** A child process was created. *)
Definition child_started (tr : list event) : Prop :=
  exists at_site cmd p, In (ESpawn at_site cmd (Some p)) tr.

(** The event loop delivers neither the outcome of a probe nor a
    signal. *)
Definition probe_pending (sched : list input) : Prop :=
  Forall (fun i => match i with
                   | FetchSettled _ | Signal => False
                   | _ => True
                   end) sched.

(** The event loop delivers neither the status of the build nor a
    signal. *)
Definition build_pending (sched : list input) : Prop :=
  Forall (fun i => match i with
                   | BuildExited _ | Signal => False
                   | _ => True
                   end) sched.

(** [n] failed probes in a row, each followed by its sleep. *)
Fixpoint rounds (n : nat) : list input :=
  match n with
  | O => []
  | S n' => FetchSettled false :: BackoffElapsed :: rounds n'
  end.

(** The first [n] values of the backoff, and the multiples of five
    among the attempt counts 1 to [n]. *)
Definition ladder (n : nat) : list Q := List.map backoff (seq 0 n).

Definition fives (n : nat) : list nat :=
  List.filter (fun k => (k mod 5 =? 0)%nat) (seq 1 n).

(** What the loop of [waitForServer] leaves in a trace: the probes,
    the sleeps and the progress lines, in order. *)
Definition in_loop (e : event) : bool :=
  match e with
  | EProbe | ESleep _ | EProgress _ => true
  | _ => false
  end.

Definition loop_events (tr : list event) : list event :=
  List.filter in_loop tr.

(** The first [n] turns of the loop that found the server not ready:
    turn [k] (from 0) is the probe, the sleep of [backoff k] after it
    failed, and the progress line when [k + 1] is a multiple of five. *)
Fixpoint waits (n : nat) : list event :=
  match n with
  | O => []
  | S k => waits k ++ [EProbe; ESleep (backoff k)] ++
           (if (S k mod 5 =? 0)%nat then [EProgress (S k)] else [])
  end.

(** The loop has been left (or not entered), a probe is under way, or
    the runner sleeps after a probe that failed. *)
Inductive loop_shape : list event -> Prop :=
| shape_left (n : nat) : loop_shape (waits n)
| shape_probing (n : nat) : loop_shape (waits n ++ [EProbe])
| shape_asleep (n : nat) :
    loop_shape (waits n ++ [EProbe; ESleep (backoff n)]).

(** ** Invariants of the flexible runner *)

Module FlexibleInv.
Import Flexible.

Section Inv.

Variable w : World.
Variable e : gmap string jsstring.
Variable T : Z.

(** What holds of every state the runner reaches. *)
Record inv (s : state) : Prop := {
  inv_fresh : cleaned s = false ->
    count is_sigterm (out s) = 0%nat /\ count is_sigkill (out s) = 0%nat /\
    count is_cleanup (out s) = 0%nat /\
    forall c, finished s <> Some (Exited c);
  inv_called : cleaned s = true -> (1 <= count is_cleanup (out s))%nat;
  inv_sigterm : (count is_sigterm (out s) <= 1)%nat;
  inv_sigkill : (count is_sigkill (out s) <= 1)%nat;
  inv_tasks :
    match cleanups s with
    | [] => True
    | [(pc, c)] =>
        cleaned s = true /\ serverChild s <> None /\
        (pc = AwaitRace -> count is_sigkill (out s) = 0%nat) /\
        (pc <> AwaitPause -> server_exited s = false) /\
        (c = 1 \/ c = 0 /\ at_main s = Returned /\
                    (1 <= count (is_spawn_at TestSite) (out s))%nat)
    | _ => False
    end;
  inv_noserver : serverChild s = None ->
    listening s = false /\ server_exited s = false /\
    count is_sigterm (out s) = 0%nat /\ count is_sigkill (out s) = 0%nat /\
    count (is_spawn_at TestSite) (out s) = 0%nat;
  inv_listening : serverChild s <> None ->
    listening s = true /\
    (1 <= count (is_spawn_at ServerSite) (out s))%nat;
  inv_spawned : forall cmd q,
    In (ESpawn ServerSite cmd (Some q)) (out s) -> serverChild s = Some q;
  inv_term : forall p,
    serverChild s = Some p -> cleaned s = true ->
    In (EKill p SIGTERM) (out s);
  inv_exit : forall c, finished s = Some (Exited c) ->
    cleaned s = true /\ List.last (out s) EProbe = EExit c /\
    (c = 1 \/ c = 0 /\ at_main s = Returned /\
                (1 <= count (is_spawn_at TestSite) (out s))%nat);
  inv_killed : finished s = Some KilledBySignal -> serverChild s = None;
  inv_main :
    match at_main s with
    | AwaitBuild => serverChild s = None /\ cleaned s = false
    | Returned => finished s = None -> cleanups s <> []
    | AwaitTest => serverChild s <> None /\
           (1 <= count (is_spawn_at TestSite) (out s))%nat
    | _ => serverChild s <> None /\
           count (is_spawn_at TestSite) (out s) = 0%nat
    end;
  inv_served :
    count (is_spawn_at ServerSite) (out s) = 0%nat \/
    directMode e = false \/ SERVE_CMD e <> None
}.

(** What the trace tells about the loop of [waitForServer]: the sleeps
    so far are the first values of the backoff, the progress lines are
    the multiples of five among the attempt counts reached, and [main]
    carries the attempt count. *)
Record loop_inv (s : state) : Prop := {
  li_sleeps : sleeps (out s) = ladder (length (sleeps (out s)));
  li_progress :
    progress_lines (out s) =
    fives (match at_main s with
           | AwaitBackoff _ _ => pred (length (sleeps (out s)))
           | _ => length (sleeps (out s))
           end);
  li_attempt :
    match at_main s with
    | AwaitFetch start a =>
        a = length (sleeps (out s)) /\ start = now w 0 /\
        now w (S a) - start < T
    | AwaitBackoff start a =>
        S a = length (sleeps (out s)) /\ start = now w 0
    | AwaitBuild => sleeps (out s) = []
    | _ => True
    end
}.

(** The events of the loop in the trace, by where [main] stands. *)
Definition shape_inv (s : state) : Prop :=
  match at_main s with
  | AwaitBuild => loop_events (out s) = []
  | AwaitFetch _ a => loop_events (out s) = waits a ++ [EProbe]
  | AwaitBackoff _ a =>
      loop_events (out s) = waits a ++ [EProbe; ESleep (backoff a)]
  | AwaitTest => exists a, loop_events (out s) = waits a ++ [EProbe]
  | Returned =>
      exists a, loop_events (out s) = waits a \/
                loop_events (out s) = waits a ++ [EProbe]
  end.

End Inv.

End FlexibleInv.

(** ** Log lines (lines 132, 226, 266) *)

Module Log.

(** [a.join(sep)] on an array of strings. *)
Fixpoint join (sep : jsstring) (a : list jsstring) : jsstring :=
  match a with
  | [] => []
  | x :: r =>
      match r with
      | [] => x
      | _ :: _ => x ++ sep ++ join sep r
      end
  end.

(** [s.includes(" ")]: the space, code unit 32, occurs in [s]. *)
Definition includes_space (s : jsstring) : bool := existsb (N.eqb 32) s.

(** [s.includes(" ") ? `"${s}"` : s] (34 is the double quote). *)
Definition shown (s : jsstring) : jsstring :=
  if includes_space s then [34%N] ++ s ++ [34%N] else s.

(** The line [spawnChild] prints before it spawns (line 132). *)
Definition spawning_line (cmd : list jsstring) : jsstring :=
  js "> spawning: " ++ join (js " ") (List.map shown cmd).

End Log.

(** ** More invariants of the flexible runner *)

Module FlexibleInv2.
Import Flexible.

Section Inv.

Variable w : World.
Variable e : gmap string jsstring.
Variable T : Z.

(** What else holds of every state the runner reaches: who may have
    called [Deno.exit], what a suspended [cleanup] implies, where a
    runner without listeners stands, and how many probes were sent. *)
Record more_inv (s : state) : Prop := {
  mi_exit : forall c,
    finished s = Some (Exited c) -> serverChild s <> None ->
    server_exited s = true \/ (2 <= count is_cleanup (out s))%nat;
  mi_waiting : cleaned s = true -> finished s = None -> cleanups s <> [];
  mi_deaf : listening s = false ->
    (forall c, finished s <> Some (Exited c)) ->
    directMode e = true /\ at_main s = AwaitBuild /\
    match BUILD_CMD e with
    | Some cmd =>
        out s = [ESpawn BuildSite cmd (spawnChild w BuildSite cmd)] /\
        spawnChild w BuildSite cmd <> None
    | None => False
    end;
  mi_probes :
    match at_main s with
    | AwaitFetch start a | AwaitBackoff start a =>
        start = now w 0 /\ count is_probe (out s) = S a
    | AwaitBuild =>
        count is_probe (out s) = 0%nat /\
        count (is_spawn_at ServerSite) (out s) = 0%nat
    | _ => True
    end;
  mi_passed :
    count is_probe (out s) = 0%nat \/
    now w (count is_probe (out s)) - now w 0 < T;
  mi_first :
    count is_probe (out s) = 0%nat \/ now w 1 - now w 0 < T;
  mi_tested :
    count (is_spawn_at TestSite) (out s) = 0%nat \/
    (1 <= count is_probe (out s))%nat;
  mi_once :
    (count (is_spawn_at BuildSite) (out s) <= 1)%nat /\
    (count (is_spawn_at ServerSite) (out s) <= 1)%nat /\
    (count (is_spawn_at TestSite) (out s) <= 1)%nat
}.

(** What a state tells about the inputs delivered so far. *)
Record hist_inv (sched : list input) (s : state) : Prop := {
  hi_build :
    serverChild s <> None -> directMode e = true -> BUILD_CMD e <> None ->
    In (BuildExited true) sched;
  hi_ready :
    (1 <= count (is_spawn_at TestSite) (out s))%nat ->
    In (FetchSettled true) sched;
  hi_passed :
    match cleanups s with
    | [(_, c)] => c = 0 -> In (TestExited true) sched
    | _ => True
    end;
  hi_exit : finished s = Some (Exited 0) -> In (TestExited true) sched;
  hi_server : server_exited s = true -> In ServerExited sched
}.

End Inv.

End FlexibleInv2.

(** ** More invariants of the first runner *)

Module LegacyInv2.
Import Legacy.

Section Inv.

Variable w : World.

(** What the trace and the deliveries so far tell about a state of the
    first runner: the loop of [waitForServer] carries the number of
    probes, the last probe was made before the time was up, line 81 is
    the only place that signals the server, reached after the tests
    succeeded and never after a [Deno.exit], and the tests are spawned
    after a probe that succeeded. *)
Record more_inv (sched : list input) (s : state) : Prop := {
  lm_probes : finished s = None ->
    match at_pc s with
    | AwaitFetch start k | AwaitDelay start k =>
        start = now w 0 /\ count is_probe (out s) = S k /\
        count (is_spawn_at TestSite) (out s) = 0%nat
    | _ => True
    end;
  lm_passed :
    count is_probe (out s) = 0%nat \/
    now w (count is_probe (out s)) - now w 0 < SERVER_TIMEOUT;
  lm_before : at_pc s <> AwaitStatus ->
    count is_kill (out s) = 0%nat /\ count is_sigterm (out s) = 0%nat \/
    finished s = Some (Exited 1) /\ server_exited s = true /\
    count is_kill (out s) = 1%nat /\ count is_sigterm (out s) = 1%nat /\
    In (TestExited true) sched /\
    match serverProcess s with
    | Some p => List.last (out s) EProbe = EKill p SIGTERM
    | None => False
    end;
  lm_status : at_pc s = AwaitStatus ->
    count is_sigterm (out s) = 1%nat /\ count is_kill (out s) = 1%nat /\
    In (TestExited true) sched /\ finished s <> Some (Exited 1);
  lm_exit : In (EExit 1) (out s) ->
    count is_kill (out s) = 0%nat /\ finished s <> None;
  lm_tested : (1 <= count (is_spawn_at TestSite) (out s))%nat ->
    In (FetchSettled true) sched;
  lm_test_pc :
    match at_pc s with
    | AwaitTest | AwaitStatus =>
        (1 <= count (is_spawn_at TestSite) (out s))%nat
    | _ => True
    end;
  lm_once : (count (is_spawn_at TestSite) (out s) <= 1)%nat /\
            (count (is_spawn_at ServerSite) (out s) <= 1)%nat;
  lm_zero : finished s = Some (Exited 0) ->
    at_pc s = AwaitStatus /\ In ServerExited sched
}.

End Inv.

End LegacyInv2.

(** ** Concrete environments and worlds *)

(** Every spawn succeeds (the server is child 4242), the clock reads
    [200 * k] at its [k]-th reading, and SIGKILL finds no process. *)
Definition w_ok : World :=
  {| spawn := fun at_site _ _ =>
       Some match at_site with
            | BuildSite => 4241
            | ServerSite => 4242
            | TestSite => 4243
            end;
     now := fun k => 200 * Z.of_nat k;
     sigkill := fun _ => false |}.

(** As [w_ok], with a clock that stands still for the first test of
    the loop and reads 1000000 from then on. *)
Definition w_late : World :=
  {| spawn := spawn w_ok;
     now := fun k => match k with O | 1%nat => 0 | _ => 1000000 end;
     sigkill := sigkill w_ok |}.

(** As [w_ok], with a clock that moves on by 1000 ms at every
    reading. *)
Definition w_slow : World :=
  {| spawn := spawn w_ok;
     now := fun k => 1000 * Z.of_nat k;
     sigkill := sigkill w_ok |}.

(** No variable is set. *)
Definition e_unset : gmap string jsstring := ∅.

(** The two overrides are set to the empty string. *)
Definition e_task : gmap string jsstring :=
  <["BUILD_CMD" := []]> (<["SERVE_CMD" := []]> ∅).

(** As [e_task], with the task command given. *)
Definition e_task_cmd : gmap string jsstring :=
  <["TASK_CMD" := js "deno task serve"]> e_task.

(** Only the serve command is set, to the empty string. *)
Definition e_no_serve : gmap string jsstring :=
  <["SERVE_CMD" := []]> ∅.

(** * Properties *)

(** ** Configuration *)

Example split_ws_ex1 : split_ws (js " a  b ") = [[]; js "a"; js "b"; []].
Proof. reflexivity. Qed.

Example split_ws_ex2 : split_ws [] = [[]].
Proof. reflexivity. Qed.

(** A tab (9), a line feed (10) and a no-break space (160) separate as
    a space does. *)
Example split_ws_ex3 :
  split_ws (js "a" ++ [9%N; 10%N] ++ js "b" ++ [160%N] ++ js "c")
  = [js "a"; js "b"; js "c"].
Proof. reflexivity. Qed.

Example BUILD_CMD_default :
  BUILD_CMD e_unset = Some [js "deno"; js "run"; js "-A"; js "dev.ts"; js "build"].
Proof. reflexivity. Qed.

(** *** Commands *)

Section ParseCmd.

Lemma split_go_insep (s : jsstring) :
  filter_Boolean (split_go true [] s) = filter_Boolean (split_go false [] s).
Proof.
  destruct s as [|c r]; simpl; [reflexivity|].
  destruct (is_ws c); reflexivity.
Qed.

Lemma parseCmd_blank_app (sp x : jsstring) :
  blank sp -> parseCmd (sp ++ x) = parseCmd x.
Proof.
  unfold parseCmd, split_ws.
  induction 1 as [|c sp Hc _ IH]; simpl; [reflexivity|].
  rewrite Hc. simpl. rewrite split_go_insep. exact IH.
Qed.

Lemma split_go_word (t : jsstring) :
  Forall (fun c => is_ws c = false) t ->
  forall b cur rest,
    t <> [] -> split_go b cur (t ++ rest) = split_go false (cur ++ t) rest.
Proof.
  induction 1 as [|c t Hc Ht IH]; intros b cur rest Hne; [congruence|].
  simpl. rewrite Hc.
  destruct t as [|c' t'].
  - reflexivity.
  - rewrite IH by discriminate. now rewrite <- app_assoc.
Qed.

Lemma parseCmd_word_app (t rest : jsstring) :
  word t -> at_gap rest -> parseCmd (t ++ rest) = t :: parseCmd rest.
Proof.
  intros [Hne Ht] Hgap. unfold parseCmd, split_ws.
  rewrite (split_go_word t Ht) by assumption. simpl.
  destruct rest as [|c r]; simpl in *.
  - destruct t; [congruence | reflexivity].
  - rewrite Hgap. simpl. destruct t; [congruence | reflexivity].
Qed.

Lemma Splits_parseCmd (raw : jsstring) (ts : list jsstring) :
  Splits raw ts -> parseCmd raw = ts.
Proof.
  induction 1 as [sp Hsp | sp t rest ts Hsp Ht Hgap _ IH].
  - rewrite <- (app_nil_r sp). now rewrite parseCmd_blank_app.
  - rewrite parseCmd_blank_app by assumption.
    rewrite parseCmd_word_app by assumption. now rewrite IH.
Qed.

Lemma blank_at_gap (s : jsstring) : blank s -> at_gap s.
Proof. destruct 1; simpl; auto. Qed.

Lemma word_cons (c : N) (t : jsstring) :
  is_ws c = false -> Forall (fun c => is_ws c = false) t -> word (c :: t).
Proof. intros Hc Ht. split; [discriminate | now constructor]. Qed.

Lemma Splits_exists (raw : jsstring) : exists ts, Splits raw ts.
Proof.
  induction raw as [|c r [ts IH]].
  - exists []. constructor. constructor.
  - destruct (is_ws c) eqn:Hc;
      inversion IH as [sp Hsp | sp t rest ts' Hsp Ht Hgap Hrest]; subst.
    + exists []. constructor. now constructor.
    + exists (t :: ts').
      apply (Splits_word (c :: sp) t rest ts'); auto. now constructor.
    + exists [[c]].
      apply (Splits_word [] [c] r []); auto using blank_at_gap.
      * constructor.
      * now apply word_cons.
    + destruct sp as [|c' sp'].
      * exists ((c :: t) :: ts').
        apply (Splits_word [] (c :: t) rest ts'); auto.
        apply word_cons; [assumption | apply Ht].
      * exists ([c] :: t :: ts').
        apply (Splits_word [] [c] ((c' :: sp') ++ t ++ rest) (t :: ts')); auto.
        -- constructor.
        -- now apply word_cons.
        -- simpl. now inversion Hsp.
Qed.

Lemma Forall_ws_map (f : N -> N) (b : bool) (s : jsstring) :
  (forall c, is_ws (f c) = is_ws c) ->
  Forall (fun c => is_ws c = b) s ->
  Forall (fun c => is_ws c = b) (List.map f s).
Proof.
  intros Hf. induction 1 as [|c s Hc _ IH]; simpl; constructor; auto.
  now rewrite Hf.
Qed.

Lemma Splits_map (f : N -> N) (raw : jsstring) (ts : list jsstring) :
  (forall c, is_ws (f c) = is_ws c) ->
  Splits raw ts -> Splits (List.map f raw) (List.map (List.map f) ts).
Proof.
  intros Hf. induction 1 as [sp Hsp | sp t rest ts Hsp Ht Hgap _ IH]; simpl.
  - constructor. now apply Forall_ws_map.
  - rewrite !map_app. apply Splits_word; auto.
    + now apply Forall_ws_map.
    + destruct Ht as [Hne Ht]. split.
      * destruct t; [congruence | discriminate].
      * now apply Forall_ws_map.
    + destruct rest; simpl in *; [auto | now rewrite Hf].
Qed.

Lemma Splits_app_blank (raw sp : jsstring) (ts : list jsstring) :
  blank sp -> Splits raw ts -> Splits (raw ++ sp) ts.
Proof.
  intros Hsp. induction 1 as [sp0 Hsp0 | sp0 t rest ts Hsp0 Ht Hgap _ IH].
  - constructor. unfold blank in *. now apply Forall_app.
  - rewrite <- !app_assoc. apply Splits_word; auto.
    destruct rest; simpl in *; [now apply blank_at_gap | assumption].
Qed.

Lemma parseCmd_app_blank (raw sp : jsstring) :
  blank sp -> parseCmd (raw ++ sp) = parseCmd raw.
Proof.
  intros Hsp. destruct (Splits_exists raw) as [ts H].
  rewrite (Splits_parseCmd _ _ H).
  now apply Splits_parseCmd, Splits_app_blank.
Qed.

Lemma trimStart_split (s : jsstring) :
  exists sp, blank sp /\ s = sp ++ trimStart s.
Proof.
  induction s as [|c r (sp & Hsp & E)]; simpl.
  - exists []. split; [constructor | reflexivity].
  - destruct (is_ws c) eqn:Hc.
    + exists (c :: sp). split; [now constructor | simpl; congruence].
    + exists []. split; [constructor | reflexivity].
Qed.

Lemma rev_blank (s : jsstring) : blank s -> blank (rev s).
Proof.
  unfold blank. rewrite !List.Forall_forall. intros H c Hin.
  apply H. now apply in_rev.
Qed.

(** Trimming first, as lines 114-115 do, does not change the command. *)
Lemma parseCmd_trim (raw : jsstring) : parseCmd (trim raw) = parseCmd raw.
Proof.
  unfold trim, trimEnd.
  destruct (trimStart_split raw) as (sp & Hsp & E).
  destruct (trimStart_split (rev (trimStart raw))) as (sp' & Hsp' & E').
  apply (f_equal (@rev N)) in E'. rewrite rev_involutive, rev_app_distr in E'.
  rewrite E at 2. rewrite parseCmd_blank_app by assumption.
  rewrite E' at 2. symmetry. apply parseCmd_app_blank. now apply rev_blank.
Qed.

End ParseCmd.

(** C9: the command resolved from a raw string is that string split on
    runs of white space with the empty pieces dropped ([Splits] holds of
    it and of nothing else); a string of white space only resolves to
    the empty command; nothing but the white-space status of a
    character matters, so that a quote is a character like any other;
    and the trimming of lines 114-115 changes nothing. *)
Theorem C9_parseCmd_splits_on_whitespace (raw : jsstring) :
  Splits raw (parseCmd raw) /\
  (forall ts, Splits raw ts -> ts = parseCmd raw) /\
  (blank raw -> parseCmd raw = []) /\
  (forall f : N -> N, (forall c, is_ws (f c) = is_ws c) ->
     parseCmd (List.map f raw) = List.map (List.map f) (parseCmd raw)) /\
  parseCmd (trim raw) = parseCmd raw.
Proof.
  destruct (Splits_exists raw) as [ts Hts].
  pose proof (Splits_parseCmd raw ts Hts) as E.
  repeat split.
  - now rewrite E.
  - intros ts' H. symmetry. now apply Splits_parseCmd.
  - intros Hb. apply Splits_parseCmd. now constructor.
  - intros f Hf. apply Splits_parseCmd. rewrite E. now apply Splits_map.
  - apply parseCmd_trim.
Qed.

(** A quoted argument with a space in it is cut in two, quotes kept
    (34 is the double quote). *)
Example parseCmd_quotes :
  parseCmd (js "sh -c " ++ [34%N] ++ js "a b" ++ [34%N])
  = [js "sh"; js "-c"; 34%N :: js "a"; js "b" ++ [34%N]].
Proof. reflexivity. Qed.

(** *** Mode and defaults *)

Lemma trimStart_head (s : jsstring) (c : N) (r : jsstring) :
  trimStart s = c :: r -> is_ws c = false.
Proof.
  induction s as [|d s IH]; simpl; [discriminate|].
  destruct (is_ws d) eqn:Hd; [exact IH|].
  intros E. injection E as -> _. exact Hd.
Qed.

Lemma trimStart_nil_iff (s : jsstring) : trimStart s = [] <-> blank s.
Proof.
  split.
  - induction s as [|c s IH]; simpl; [constructor|].
    destruct (is_ws c) eqn:Hc; [|discriminate].
    intros H. constructor; [assumption | exact (IH H)].
  - induction 1 as [|c s Hc _ IH]; simpl; [reflexivity|]. now rewrite Hc.
Qed.

Lemma blank_rev (s : jsstring) : blank (rev s) -> blank s.
Proof.
  unfold blank. rewrite !List.Forall_forall. intros H c Hin.
  apply H. now apply in_rev in Hin.
Qed.

Lemma trim_nil_iff (s : jsstring) : trim s = [] <-> blank s.
Proof.
  unfold trim, trimEnd. split.
  - intros H. apply (f_equal (@rev N)) in H. rewrite rev_involutive in H.
    simpl in H. apply trimStart_nil_iff, blank_rev in H.
    destruct (trimStart s) as [|c r] eqn:E.
    + now apply trimStart_nil_iff.
    + apply trimStart_head in E. inversion H; congruence.
  - intros H. apply trimStart_nil_iff in H. now rewrite H.
Qed.

Lemma truthy_false_iff (s : jsstring) : truthy s = false <-> s = [].
Proof. destruct s; simpl; split; congruence. Qed.

(** What the code does: task mode is in effect exactly when the two raw
    strings, defaults included, are blank. *)
Lemma directMode_false_iff (e : gmap string jsstring) :
  directMode e = false <->
  blank (env e "BUILD_CMD" (js "deno run -A dev.ts build")) /\
  blank (env e "SERVE_CMD" (js "deno serve -A _fresh/server.js")).
Proof.
  unfold directMode, or_else, BUILD_CMD_RAW, SERVE_CMD_RAW.
  rewrite <- !trim_nil_iff.
  destruct (trim (env e "BUILD_CMD" _)) as [|c r] eqn:EB; simpl.
  - rewrite truthy_false_iff. tauto.
  - split; [discriminate | intros [H _]; discriminate].
Qed.

(** X1: task mode is in effect exactly when both BUILD_CMD and
    SERVE_CMD are set in the environment, each to a string of white
    space only (the empty string included): the defaults of lines
    114-115 are not blank. *)
Lemma directMode_false_overrides (e : gmap string jsstring) :
  directMode e = false <->
  exists b s, e !! "BUILD_CMD" = Some b /\ blank b /\
              e !! "SERVE_CMD" = Some s /\ blank s.
Proof.
  rewrite directMode_false_iff. unfold env. split.
  - intros [HB HS].
    destruct (e !! "BUILD_CMD") as [b|]; [|inversion HB; discriminate].
    destruct (e !! "SERVE_CMD") as [s|]; [|inversion HS; discriminate].
    eauto 6.
  - intros (b & s & -> & Hb & -> & Hs). auto.
Qed.

(** The build and serve commands are absent for a blank raw string, and
    the split of the raw string otherwise. *)
Lemma BUILD_CMD_resolved (e : gmap string jsstring) :
  let raw := env e "BUILD_CMD" (js "deno run -A dev.ts build") in
  (blank raw -> BUILD_CMD e = None) /\
  (~ blank raw -> BUILD_CMD e = Some (parseCmd raw)).
Proof.
  intros raw. unfold BUILD_CMD, BUILD_CMD_RAW. fold raw.
  rewrite parseCmd_trim. rewrite <- trim_nil_iff.
  destruct (trim raw); simpl; split; congruence.
Qed.

Lemma SERVE_CMD_resolved (e : gmap string jsstring) :
  let raw := env e "SERVE_CMD" (js "deno serve -A _fresh/server.js") in
  (blank raw -> SERVE_CMD e = None) /\
  (~ blank raw -> SERVE_CMD e = Some (parseCmd raw)).
Proof.
  intros raw. unfold SERVE_CMD, SERVE_CMD_RAW. fold raw.
  rewrite parseCmd_trim. rewrite <- trim_nil_iff.
  destruct (trim raw); simpl; split; congruence.
Qed.

(** C1, at the environment with no variable set: neither override is
    present, and the runner is in direct mode, with the default build and
    serve commands; the header of the script names task mode the
    default. *)
Theorem C1_direct_mode_without_overrides :
  e_unset !! "BUILD_CMD" = None /\
  e_unset !! "SERVE_CMD" = None /\
  directMode e_unset = true /\
  BUILD_CMD e_unset = Some [js "deno"; js "run"; js "-A"; js "dev.ts"; js "build"] /\
  SERVE_CMD e_unset = Some [js "deno"; js "serve"; js "-A"; js "_fresh/server.js"].
Proof. repeat split; reflexivity. Qed.

Lemma TASK_CMD_unset (e : gmap string jsstring) :
  e !! "TASK_CMD" = None -> TASK_CMD e = [].
Proof. unfold TASK_CMD, TASK_CMD_RAW, env. now intros ->. Qed.

(** C3, at the environment whose two overrides are empty: task mode is
    in effect, TASK_CMD is not supplied, and the task command is the
    empty command, not [deno task serve]. *)
Theorem C3_task_command_default_is_empty :
  directMode e_task = false /\
  e_task !! "TASK_CMD" = None /\
  TASK_CMD e_task = [] /\
  TASK_CMD e_task <> [js "deno"; js "task"; js "serve"].
Proof. repeat split; try reflexivity. discriminate. Qed.

(** ** The flexible runner *)

Lemma count_app (f : event -> bool) (a b : list event) :
  count f (a ++ b) = (count f a + count f b)%nat.
Proof. unfold count. now rewrite List.filter_app, List.length_app. Qed.

Module FlexibleFacts.
Import Flexible FlexibleInv.

(** Case analysis on what the goal matches on. *)
Ltac break_goal :=
  match goal with
  | |- context [match ?x with _ => _ end] => destruct x eqn:?
  end.

(** Events at the end of a trace. *)
Ltac evs :=
  unfold count in *;
  rewrite ?List.filter_app, ?List.length_app, ?List.last_last, ?in_app_iff;
  simpl.

(** Use the hypotheses that apply, drop the ones that cannot. *)
Ltac tidy :=
  repeat match goal with
  | H : ?a = ?a -> _ |- _ => specialize (H eq_refl)
  | H : ?a = ?b -> _, H' : ?a = ?b |- _ => specialize (H H')
  | H : ?a <> ?b -> _, H' : ?a <> ?b |- _ => specialize (H H')
  | H : forall p, ?a = Some p -> _, H' : ?a = Some ?q |- _ => specialize (H q H')
  | H : true = false -> _ |- _ => clear H
  | H : false = true -> _ |- _ => clear H
  | H : None = Some _ -> _ |- _ => clear H
  | H : Some _ = None -> _ |- _ => clear H
  | H : forall _, None = Some _ -> _ |- _ => clear H
  | H : _ /\ _ |- _ => destruct H
  | H : _ \/ _ |- _ => destruct H
  | H : False |- _ => destruct H
  | H : In _ (_ ++ _) |- _ => rewrite in_app_iff in H; simpl in H
  | H : forall a b, In _ ?o -> _, H' : In _ ?o |- _ => specialize (H _ _ H')
  | H : forall p, Some ?q = Some p -> _ |- _ => specialize (H q eq_refl)
  | _ => progress simplify_eq
  end.

Ltac basic := try congruence; try lia; auto; try tauto.

Ltac close :=
  basic;
  try solve [left; repeat split; basic
            | right; repeat split; basic
            | right; left; repeat split; basic
            | right; right; repeat split; basic].

(** One case of a step, for the invariant [inv]. *)
Ltac finish :=
  constructor; simpl; intros; tidy; subst; evs; simpl in *; tidy;
  repeat split; intros; tidy; subst; simpl in *; close;
  try match goal with
      | m : main_pc |- _ => destruct m; tidy; repeat split; close
      end.

(** A turn of the event loop, down to record updates. *)
Ltac unfold_step :=
  unfold step, resume_main, deliver, resume_cleanups, resume_cleanup,
    run_tests, serve, start_server, waitForServer_loop, main_cleanup, cleanup,
    after_race, await_final, exit, suspend.

Section Facts.

Variable w : World.
Variable e : gmap string jsstring.
Variable T : Z.

(** *** The invariants hold *)

Lemma inv_start : inv e (main w e T).
Proof.
  unfold main, init. unfold_step. simpl.
  repeat (break_goal; simpl; try discriminate).
  all: finish.
Qed.

Lemma inv_step (s : state) (i : input) :
  inv e s -> inv e (step w e T s i).
Proof.
  intros I.
  destruct s as [cl sc li se m cs fin o].
  unfold step; simpl.
  destruct fin as [o'|]; [assumption|].
  destruct I as [H1 H2 H3 H4 H5 H6 H7 H8 H9 H10 H11 H12 H13]; simpl in *.
  destruct cs as [|[pc c] [|t' cs']]; simpl in *; try tauto.
  all: destruct i; simpl.
  all: unfold_step; simpl.
  all: repeat (break_goal; simpl; try discriminate).
  all: subst.
  all: try (constructor; simpl; assumption).
  all: finish.
Qed.

Lemma inv_fold (sched : list input) (s : state) :
  inv e s -> inv e (fold_left (step w e T) sched s).
Proof.
  revert s. induction sched as [|i sched IH]; simpl; intros s I.
  - exact I.
  - apply IH. now apply inv_step.
Qed.

Lemma inv_run (sched : list input) : inv e (run w e T sched).
Proof. apply inv_fold, inv_start. Qed.

Lemma ladder_S n : ladder (S n) = ladder n ++ [backoff n].
Proof. unfold ladder. now rewrite seq_S, List.map_app. Qed.

Lemma fives_S n :
  fives (S n) = fives n ++ (if (S n mod 5 =? 0)%nat then [S n] else []).
Proof. unfold fives. rewrite seq_S, List.filter_app. reflexivity. Qed.

Local Arguments Nat.modulo : simpl never.

Lemma sleeps_app (a b : list event) : sleeps (a ++ b) = sleeps a ++ sleeps b.
Proof. apply flat_map_app. Qed.

Lemma progress_lines_app (a b : list event) :
  progress_lines (a ++ b) = progress_lines a ++ progress_lines b.
Proof. apply flat_map_app. Qed.

(** One case of a step, for the invariant [loop_inv]. *)
Ltac loop_finish :=
  constructor; simpl;
  rewrite ?sleeps_app, ?progress_lines_app; simpl;
  rewrite ?app_nil_r, ?List.length_app; simpl;
  rewrite ?Nat.add_0_r, ?Nat.add_1_r;
  repeat match goal with
         | H : _ /\ _ |- _ => destruct H
         end;
  repeat match goal with
         | H : sleeps _ = [] |- _ => rewrite H in *; simpl in *
         | H : ?a = length _ |- _ => rewrite <- H in *
         end;
  simpl in *; rewrite ?ladder_S, ?fives_S in *;
  repeat match goal with
         | H : (_ =? _)%nat = _ |- _ => rewrite H
         end;
  rewrite ?app_nil_r; repeat split; try apply Z.ltb_lt;
  try congruence; auto.

Lemma loop_start : loop_inv w T (main w e T).
Proof.
  unfold main, init. unfold_step. simpl.
  repeat (break_goal; simpl; try discriminate).
  all: loop_finish.
Qed.

Lemma loop_step (s : state) (i : input) :
  inv e s -> loop_inv w T s -> loop_inv w T (step w e T s i).
Proof.
  intros I L.
  destruct s as [cl sc li se m cs fin o].
  unfold step; simpl.
  destruct fin as [o'|]; [assumption|].
  pose proof (inv_tasks _ _ I) as H5. clear I.
  destruct L as [L1 L2 L3]; simpl in *.
  destruct cs as [|[pc c] [|t' cs']]; simpl in *; try tauto.
  all: clear H5.
  all: destruct i; simpl.
  all: unfold_step; simpl.
  all: repeat (break_goal; simpl; try discriminate).
  all: subst.
  all: try (constructor; simpl; assumption).
  all: loop_finish.
Qed.

Lemma loop_run (sched : list input) : loop_inv w T (run w e T sched).
Proof.
  unfold run.
  assert (H : forall s, inv e s -> loop_inv w T s ->
              loop_inv w T (fold_left (step w e T) sched s)).
  { induction sched as [|i sched' IH]; simpl; intros s I L; [exact L|].
    apply IH; [now apply inv_step | now apply loop_step]. }
  apply H; [apply inv_start | apply loop_start].
Qed.

(** *** Runs *)

Lemma run_app (a b : list input) :
  run w e T (a ++ b) = fold_left (step w e T) b (run w e T a).
Proof. unfold run. apply fold_left_app. Qed.

Lemma finished_stuck (sched : list input) (s : state) (o : outcome) :
  finished s = Some o -> fold_left (step w e T) sched s = s.
Proof.
  intros H. induction sched as [|i sched IH]; simpl; [reflexivity|].
  unfold step at 2. now rewrite H.
Qed.

(** The flag is never reset, and once [main] has returned it neither
    probes nor starts the tests. *)
Lemma step_misc (s : state) (i : input) :
  inv e s ->
  (cleaned s = true -> cleaned (step w e T s i) = true) /\
  (at_main s = Returned ->
     at_main (step w e T s i) = Returned /\
     count is_probe (out (step w e T s i)) = count is_probe (out s) /\
     count (is_spawn_at TestSite) (out (step w e T s i))
     = count (is_spawn_at TestSite) (out s)).
Proof.
  intros I.
  destruct s as [cl sc li se m cs fin o].
  unfold step; simpl.
  destruct fin as [o'|]; [simpl; auto|].
  pose proof (inv_tasks _ _ I) as H5. clear I. simpl in *.
  destruct cs as [|[pc c] [|t' cs']]; simpl in *; try tauto.
  all: clear H5.
  all: destruct i; simpl.
  all: unfold_step; simpl.
  all: repeat (break_goal; simpl; try discriminate).
  all: subst; split; intros; try discriminate; evs; repeat split; try congruence; try lia.
Qed.

Lemma cleanup_sets_flag (c : Z) (s : state) : cleaned (cleanup w c s) = true.
Proof.
  destruct s as [cl sc li se m cs fin o].
  unfold_step; simpl.
  repeat (break_goal; simpl; try discriminate); congruence.
Qed.

Lemma cleanup_again (c : Z) (s : state) :
  cleaned s = true -> cleanup w c s = exit c (emit (ECleanup c) s).
Proof. intros H. unfold cleanup. simpl. now rewrite H. Qed.

(** C5: in every state the runner reaches, the flag is set exactly when
    [cleanup] has been entered; no turn of the event loop resets it; an
    invocation of [cleanup] leaves it set; an invocation that finds it
    set does nothing but [Deno.exit] with its own exit code; and the
    termination sequence ran at most once: one SIGTERM and one SIGKILL
    at most were sent, and one invocation at most is waiting. *)
Theorem C5_cleanup_runs_once (sched : list input) :
  let s := run w e T sched in
  (cleaned s = true <-> (1 <= count is_cleanup (out s))%nat) /\
  (forall i, cleaned s = true -> cleaned (step w e T s i) = true) /\
  (forall c, cleaned (cleanup w c s) = true) /\
  (forall c, cleaned s = true ->
     cleanup w c s = exit c (emit (ECleanup c) s)) /\
  (count is_sigterm (out s) <= 1)%nat /\
  (count is_sigkill (out s) <= 1)%nat /\
  (length (cleanups s) <= 1)%nat.
Proof.
  intros s. pose proof (inv_run sched) as I. fold s in I.
  repeat split.
  - apply (inv_called _ _ I).
  - intros H. destruct (cleaned s) eqn:E; [reflexivity|].
    destruct (inv_fresh _ _ I E) as (_ & _ & H0 & _). lia.
  - intros i. now apply step_misc.
  - intros c. apply cleanup_sets_flag.
  - intros c. apply cleanup_again.
  - apply (inv_sigterm _ _ I).
  - apply (inv_sigkill _ _ I).
  - pose proof (inv_tasks _ _ I) as H.
    destruct (cleanups s) as [|[pc c] [|t l]]; simpl; solve [lia | contradiction].
Qed.

(** *** Configuration errors *)

Lemma trim_not_blank (s : jsstring) : trim s <> [] -> ~ blank (trim s).
Proof.
  unfold trim, trimEnd. intros Hne Hb. apply Hne.
  apply blank_rev in Hb.
  destruct (trimStart (rev (trimStart s))) as [|c r] eqn:E; [reflexivity|].
  apply trimStart_head in E. inversion Hb; congruence.
Qed.

Lemma parseCmd_trim_nonempty (s : jsstring) :
  trim s <> [] -> parseCmd (trim s) <> [].
Proof.
  intros Hne Hp. apply (trim_not_blank s Hne).
  destruct (Splits_exists (trim s)) as [ts H].
  rewrite <- (Splits_parseCmd _ _ H), Hp in H. now inversion H.
Qed.

(** C10: with the two overrides set to the empty string and no
    TASK_CMD, task mode is in effect and the task command is empty;
    spawning it throws, which line 277 catches to call [cleanup(1)];
    no server handle exists, so the process exits with code 1 at once,
    whatever the event loop would deliver. *)
Theorem C10_empty_task_command (sched : list input) :
  e !! "BUILD_CMD" = Some (nil : jsstring) ->
  e !! "SERVE_CMD" = Some (nil : jsstring) ->
  e !! "TASK_CMD" = None ->
  directMode e = false /\
  TASK_CMD e = [] /\
  spawnChild w ServerSite (TASK_CMD e) = None /\
  let s := run w e T sched in
  finished s = Some (Exited 1) /\
  serverChild s = None /\
  out s = [ESpawn ServerSite [] None; ECleanup 1; EExit 1] /\
  ~ child_started (out s).
Proof.
  intros HB HS HT.
  assert (D : directMode e = false).
  { unfold directMode, or_else, BUILD_CMD_RAW, SERVE_CMD_RAW, env.
    now rewrite HB, HS. }
  assert (C : TASK_CMD e = []) by now apply TASK_CMD_unset.
  assert (B : main w e T =
              cleanup w 1 (set_main Returned
                (emit (ESpawn ServerSite [] None) init))).
  { unfold main. rewrite D, C. reflexivity. }
  repeat split; auto.
  - now rewrite C.
  - unfold run. rewrite (finished_stuck sched _ (Exited 1)); now rewrite B.
  - unfold run. rewrite (finished_stuck sched _ (Exited 1)); now rewrite B.
  - unfold run. rewrite (finished_stuck sched _ (Exited 1)); now rewrite B.
  - unfold run. rewrite (finished_stuck sched _ (Exited 1)) by now rewrite B.
    rewrite B. simpl. intros (a & c & p & [H|[H|[H|[]]]]); discriminate.
Qed.

(** While the build runs, nothing but its status or a signal makes
    [main] go on. *)
Lemma build_is_awaited (cmd : list jsstring) (p : pid) (sched : list input) :
  build_pending sched ->
  let s0 := set_main AwaitBuild
              (emit (ESpawn BuildSite cmd (Some p)) init) in
  fold_left (step w e T) sched s0 = s0.
Proof.
  intros H s0. induction H as [|i sched Hi _ IH]; [reflexivity|].
  simpl. replace (step w e T s0 i) with s0; [exact IH|].
  destruct i; try contradiction; reflexivity.
Qed.

(** C4, as amended: in direct mode without a serve command there is a
    build command, which is spawned first.  When the spawn succeeds the
    build is awaited: the run stays where it is, with the spawn of the
    build as its whole trace, until the build's status resolves (or a
    signal comes), and only then, whether the build succeeded or
    failed, [cleanup(1)] follows and the process exits with code 1.
    When the build cannot be spawned, [cleanup(1)] follows at once.  No
    spawn of a server is attempted, and code 1 is the only exit code. *)
Theorem C4_direct_mode_without_serve_command :
  directMode e = true -> SERVE_CMD e = None ->
  exists cmd,
    BUILD_CMD e = Some cmd /\ cmd <> [] /\
    (forall p, spawnChild w BuildSite cmd = Some p ->
       forall sched, build_pending sched ->
         (let s := run w e T sched in
          finished s = None /\ at_main s = AwaitBuild /\
          out s = [ESpawn BuildSite cmd (Some p)]) /\
         (forall ok,
            let s := run w e T (sched ++ [BuildExited ok]) in
            finished s = Some (Exited 1) /\
            out s = [ESpawn BuildSite cmd (Some p); ECleanup 1; EExit 1])) /\
    (spawnChild w BuildSite cmd = None ->
       let s := run w e T [] in
       finished s = Some (Exited 1) /\
       out s = [ESpawn BuildSite cmd None; ECleanup 1; EExit 1]) /\
    (forall ok,
       let s := run w e T [BuildExited ok] in
       finished s = Some (Exited 1) /\
       out s = [ESpawn BuildSite cmd (spawnChild w BuildSite cmd);
                ECleanup 1; EExit 1]) /\
    (forall sched,
       let s := run w e T sched in
       serverChild s = None /\
       count (is_spawn_at ServerSite) (out s) = 0%nat /\
       forall c, finished s = Some (Exited c) -> c = 1).
Proof.
  intros D S.
  assert (SR : SERVE_CMD_RAW e = []).
  { unfold SERVE_CMD in S. destruct (SERVE_CMD_RAW e); [reflexivity|discriminate]. }
  assert (BR : truthy (BUILD_CMD_RAW e) = true).
  { unfold directMode, or_else in D. rewrite SR in D.
    destruct (truthy (BUILD_CMD_RAW e)); [reflexivity | discriminate]. }
  exists (parseCmd (BUILD_CMD_RAW e)).
  assert (B : BUILD_CMD e = Some (parseCmd (BUILD_CMD_RAW e))).
  { unfold BUILD_CMD. now rewrite BR. }
  split; [exact B|]. split.
  { apply parseCmd_trim_nonempty. unfold BUILD_CMD_RAW in BR.
    intros H. rewrite H in BR. discriminate. }
  split; [|split; [|split]].
  - intros p Sp sched Hp.
    assert (M0 : main w e T
                 = set_main AwaitBuild
                     (emit (ESpawn BuildSite (parseCmd (BUILD_CMD_RAW e))
                              (Some p)) init)).
    { unfold main. rewrite D, B. simpl. now rewrite Sp. }
    assert (R : run w e T sched = main w e T).
    { unfold run. rewrite M0. now apply build_is_awaited. }
    split.
    + simpl. rewrite R, M0. repeat split; reflexivity.
    + intros ok. simpl. rewrite run_app, R, M0. simpl.
      unfold step. simpl. destruct ok; unfold serve; rewrite ?S;
        split; reflexivity.
  - intros Sp. unfold run, main. rewrite D, B. simpl. rewrite Sp.
    split; reflexivity.
  - intros ok. unfold run, main. rewrite D, B. simpl.
    destruct (spawnChild w BuildSite (parseCmd (BUILD_CMD_RAW e))) eqn:Sp; simpl.
    + unfold step. simpl. destruct ok; unfold serve; rewrite ?S; split; reflexivity.
    + split; reflexivity.
  - intros sched s. pose proof (inv_run sched) as I. fold s in I.
    destruct (inv_served _ _ I) as [H|[H|H]]; try congruence.
    assert (N : serverChild s = None).
    { destruct (serverChild s) as [p|] eqn:E; [|reflexivity].
      destruct (inv_listening _ _ I) as [_ H0]; [congruence | lia]. }
    repeat split; auto.
    intros c Hc. destruct (inv_exit _ _ I c Hc) as (_ & _ & [Hc1|(_ & _ & Ht)]); [exact Hc1|].
    destruct (inv_noserver _ _ I N) as (_ & _ & _ & _ & H0). lia.
Qed.

(** *** The readiness loop *)

Lemma backoff_capped (k : nat) : (11 <= k)%nat -> (backoff k == 2000)%Q.
Proof.
  intros H. unfold backoff. apply Q.min_r.
  assert (P : (10 <= Qpower 1.25 (Z.of_nat k))%Q).
  { induction H as [|k H IH].
    - vm_compute. discriminate.
    - replace (Z.of_nat (S k)) with (Z.of_nat k + 1) by lia.
      rewrite Qpower_plus by (vm_compute; discriminate).
      change (Qpower 1.25 1) with (1.25)%Q.
      revert IH. generalize (Qpower 1.25 (Z.of_nat k)). intros x IH. lra. }
  revert P. generalize (Qpower 1.25 (Z.of_nat k)). intros x P. lra.
Qed.

Lemma backoff_below_cap (k : nat) :
  (k <= 10)%nat -> (backoff k == 200 * Qpower 1.25 (Z.of_nat k))%Q.
Proof.
  intros H. unfold backoff. apply Q.min_l.
  do 11 (destruct k as [|k]; [vm_compute; discriminate|]). lia.
Qed.

(** What a turn of the loop does. *)
Lemma step_probe_failed (s : state) (start : Z) (a : nat) :
  finished s = None -> at_main s = AwaitFetch start a ->
  step w e T s (FetchSettled false)
  = emit (ESleep (backoff a)) (set_main (AwaitBackoff start a) s).
Proof. intros F M. unfold step, resume_main. now rewrite F, M. Qed.

Lemma step_backoff_elapsed (s : state) (start : Z) (a : nat) :
  finished s = None -> at_main s = AwaitBackoff start a ->
  step w e T s BackoffElapsed
  = waitForServer_loop w T start (S a)
      (if (S a mod 5 =? 0)%nat then emit (EProgress (S a)) s else s).
Proof. intros F M. unfold step, resume_main. now rewrite F, M. Qed.

(** Once the time is up, the test of the loop fails: no probe, and
    [cleanup(1)]. *)
Lemma loop_test_timeout (s : state) (start : Z) (a : nat) :
  T <= now w (S a) - start ->
  waitForServer_loop w T start a s = cleanup w 1 (set_main Returned s).
Proof.
  intros H. unfold waitForServer_loop, main_cleanup.
  destruct (Z.ltb_spec (now w (S a) - start) T); [lia | reflexivity].
Qed.

Lemma loop_test_goes_on (s : state) (start : Z) (a : nat) :
  now w (S a) - start < T ->
  waitForServer_loop w T start a s = emit EProbe (set_main (AwaitFetch start a) s).
Proof.
  intros H. unfold waitForServer_loop.
  destruct (Z.ltb_spec (now w (S a) - start) T); [reflexivity | lia].
Qed.

Lemma cleanup_keeps (c : Z) (s : state) :
  at_main (cleanup w c s) = at_main s /\
  count is_probe (out (cleanup w c s)) = count is_probe (out s) /\
  count (is_spawn_at TestSite) (out (cleanup w c s))
  = count (is_spawn_at TestSite) (out s).
Proof.
  destruct s as [cl sc li se m cs fin o].
  unfold_step; simpl.
  repeat (break_goal; simpl; try discriminate); evs; repeat split; lia.
Qed.

Lemma returned_forever (sched : list input) (s : state) :
  inv e s -> at_main s = Returned ->
  let s' := fold_left (step w e T) sched s in
  at_main s' = Returned /\
  count is_probe (out s') = count is_probe (out s) /\
  count (is_spawn_at TestSite) (out s')
  = count (is_spawn_at TestSite) (out s).
Proof.
  revert s. induction sched as [|i sched IH]; simpl; intros s I M; [auto|].
  destruct (step_misc s i I) as [_ H]. destruct (H M) as (M' & P & Q).
  destruct (IH _ (inv_step s i I) M') as (M'' & P' & Q').
  repeat split; congruence.
Qed.

(** A suspended [cleanup] ends the process once the server's status
    has resolved and the pause is over. *)
Lemma drain (s : state) :
  inv e s -> at_main s = Returned -> finished s = None ->
  exists c,
    finished (step w e T (step w e T s ServerExited) PauseElapsed)
    = Some (Exited c).
Proof.
  intros I M F.
  pose proof (inv_tasks _ _ I) as H5. pose proof (inv_main _ _ I) as H12.
  clear I. destruct s as [cl sc li se m cs fin o]. simpl in *. subst.
  specialize (H12 eq_refl).
  destruct cs as [|[pc c] [|t' cs']]; simpl in *; try tauto.
  destruct H5 as (_ & Hsc & _ & Hse & _).
  destruct sc as [p|]; [|congruence].
  destruct pc, se; try (specialize (Hse ltac:(discriminate)); discriminate).
  all: unfold_step; simpl.
  all: repeat (break_goal; simpl; try discriminate); eauto.
Qed.

Lemma wait_rounds (B : nat) :
  (forall k, now w (S k) - now w 0 < T -> (k <= B)%nat) ->
  forall m s start a,
    (a + m = S B)%nat ->
    inv e s -> loop_inv w T s ->
    finished s = None -> at_main s = AwaitFetch start a ->
    exists n s1,
      (1 <= n <= m)%nat /\
      fold_left (step w e T) (rounds n) s = cleanup w 1 s1 /\
      at_main s1 = Returned /\ finished s1 = None /\
      count (is_spawn_at TestSite) (out s1) = 0%nat.
Proof.
  intros HB. induction m as [|m IH]; intros s start a Ham I L F M.
  - pose proof (li_attempt _ _ _ L) as H. rewrite M in H.
    destruct H as (_ & -> & H). apply HB in H. lia.
  - pose proof (li_attempt _ _ _ L) as LA. rewrite M in LA.
    destruct LA as (_ & -> & _).
    set (s1 := step w e T s (FetchSettled false)).
    assert (E1 : s1 = emit (ESleep (backoff a))
                       (set_main (AwaitBackoff (now w 0) a) s))
      by now apply step_probe_failed.
    assert (I1 : inv e s1) by now apply inv_step.
    assert (L1 : loop_inv w T s1) by now apply loop_step.
    assert (F1 : finished s1 = None) by now rewrite E1.
    assert (M1 : at_main s1 = AwaitBackoff (now w 0) a) by now rewrite E1.
    assert (T1 : count (is_spawn_at TestSite) (out s1) = 0%nat).
    { pose proof (inv_main _ _ I1) as H. rewrite M1 in H. apply H. }
    set (s2 := step w e T s1 BackoffElapsed).
    pose proof (step_backoff_elapsed s1 _ _ F1 M1) as E2. fold s2 in E2.
    set (s1' := if (S a mod 5 =? 0)%nat
                then emit (EProgress (S a)) s1 else s1) in E2.
    assert (F1' : finished s1' = None)
      by (unfold s1'; destruct (S a mod 5 =? 0)%nat; assumption).
    assert (T1' : count (is_spawn_at TestSite) (out s1') = 0%nat).
    { unfold s1'. destruct (S a mod 5 =? 0)%nat; [|assumption].
      simpl. rewrite count_app, T1. reflexivity. }
    destruct (Z.lt_ge_cases (now w (S (S a)) - now w 0) T) as [Hlt|Hge].
    + rewrite loop_test_goes_on in E2 by assumption.
      destruct (IH s2 (now w 0) (S a)) as (n & s3 & Hn & E3 & M3 & F3 & T3).
      * lia.
      * now apply inv_step.
      * now apply loop_step.
      * now rewrite E2.
      * now rewrite E2.
      * exists (S n), s3. repeat split; auto; try lia.
    + rewrite loop_test_timeout in E2 by assumption.
      exists 1%nat, (set_main Returned s1'). repeat split; auto; lia.
Qed.

Lemma clock_bound :
  now w 0 <= now w 1 ->
  (forall k, now w (S k) + 200 <= now w (S (S k))) ->
  forall k, now w (S k) - now w 0 < T -> (k <= Z.to_nat (T / 200))%nat.
Proof.
  intros H0 H k.
  assert (G : now w 0 + 200 * Z.of_nat k <= now w (S k)).
  { induction k as [|k IH]; [lia|]. specialize (H k). lia. }
  intros Hk.
  assert (Z.of_nat k <= T / 200); [|lia].
  apply Z.div_le_lower_bound; lia.
Qed.

(** After the time out: [main] has left the loop through [cleanup(1)];
    it never probes again, every exit has code 1, and the process does
    exit once the server's status has resolved and the pause is over. *)
Lemma after_timeout (pre : list input) (s1 : state) :
  run w e T pre = cleanup w 1 s1 ->
  at_main s1 = Returned -> finished s1 = None ->
  count (is_spawn_at TestSite) (out s1) = 0%nat ->
  (forall sched',
     let s' := run w e T (pre ++ sched') in
     at_main s' = Returned /\
     count is_probe (out s') = count is_probe (out (run w e T pre)) /\
     forall c, finished s' = Some (Exited c) -> c = 1) /\
  finished (run w e T (pre ++ [ServerExited; PauseElapsed]))
  = Some (Exited 1).
Proof.
  intros R M1 F1 T1.
  destruct (cleanup_keeps 1 s1) as (CM & _ & CT).
  assert (I' : inv e (run w e T pre)) by apply inv_run.
  assert (M' : at_main (run w e T pre) = Returned)
    by (rewrite R; congruence).
  assert (T' : count (is_spawn_at TestSite) (out (run w e T pre)) = 0%nat)
    by (rewrite R; congruence).
  assert (K : forall sched',
    let s' := run w e T (pre ++ sched') in
    at_main s' = Returned /\
    count is_probe (out s') = count is_probe (out (run w e T pre)) /\
    forall c, finished s' = Some (Exited c) -> c = 1).
  { intros sched' s'.
    assert (Es : s' = fold_left (step w e T) sched' (run w e T pre))
      by (unfold s'; apply run_app).
    destruct (returned_forever sched' _ I' M') as (M2 & P2 & T2).
    rewrite <- Es in M2, P2, T2. repeat split; auto.
    intros c Hc.
    assert (I2 : inv e s') by apply inv_run.
    destruct (inv_exit _ _ I2 c Hc) as (_ & _ & [Hc1|(_ & _ & Ht)]); [exact Hc1|].
    lia. }
  split; [exact K|].
  destruct (finished (run w e T pre)) as [o|] eqn:F'.
  - assert (Es : run w e T (pre ++ [ServerExited; PauseElapsed])
                 = run w e T pre).
    { rewrite run_app. now apply (finished_stuck _ _ o). }
    rewrite Es, F'.
    destruct o as [c|].
    + destruct (K []) as (_ & _ & Hc). rewrite app_nil_r in Hc.
      now rewrite (Hc c F').
    + exfalso. rewrite R in F'. revert F' F1. clear.
      destruct s1 as [cl sc li se m cs fin o].
      unfold_step; simpl.
      repeat (break_goal; simpl; try discriminate); intros; congruence.
  - destruct (drain _ I' M' F') as [c Hc].
    assert (Es : run w e T (pre ++ [ServerExited; PauseElapsed])
                 = step w e T (step w e T (run w e T pre)
                                 ServerExited) PauseElapsed).
    { rewrite run_app. reflexivity. }
    destruct (K [ServerExited; PauseElapsed]) as (_ & _ & Hc1).
    rewrite Es in Hc1 |- *. rewrite Hc. now rewrite (Hc1 c Hc).
Qed.

(** A failed probe and the sleep after it lead to the next test of the
    loop. *)
Lemma next_test (s : state) (start : Z) (a : nat) :
  finished s = None -> at_main s = AwaitFetch start a ->
  let s1 := emit (ESleep (backoff a)) (set_main (AwaitBackoff start a) s) in
  let s2 := if (S a mod 5 =? 0)%nat then emit (EProgress (S a)) s1 else s1 in
  fold_left (step w e T) [FetchSettled false; BackoffElapsed] s
  = waitForServer_loop w T start (S a) s2 /\
  finished s2 = None /\
  count is_probe (out s2) = count is_probe (out s) /\
  count is_cleanup (out s2) = count is_cleanup (out s) /\
  count (is_spawn_at TestSite) (out s2)
  = count (is_spawn_at TestSite) (out s).
Proof.
  intros F M s1 s2. simpl.
  rewrite (step_probe_failed s start a F M). fold s1.
  rewrite (step_backoff_elapsed s1 start a); [|exact F | reflexivity].
  fold s2. split; [reflexivity|].
  unfold s2, s1. destruct (S a mod 5 =? 0)%nat; simpl;
    repeat split; auto; evs; lia.
Qed.

(** *** The shape of the loop in the trace *)

(** One case of a step, for [shape_inv]. *)
Ltac shape_finish :=
  unfold shape_inv in *; simpl in *; unfold loop_events in *;
  rewrite ?List.filter_app; simpl; rewrite ?app_nil_r;
  repeat match goal with
         | H : exists _, _ |- _ => destruct H
         | H : _ \/ _ |- _ => destruct H
         end;
  repeat match goal with
         | H : List.filter in_loop _ = _ |- _ => rewrite H
         end;
  try assumption; try reflexivity;
  try solve [eauto
            | rewrite <- ?app_assoc; simpl; eauto
            | exists 0%nat; left; reflexivity
            | eexists (S _); left; cbn [waits];
              repeat match goal with
                     | H : (_ =? _)%nat = _ |- _ => rewrite H
                     end;
              rewrite <- ?app_assoc, ?app_nil_r; reflexivity
            | cbn [waits];
              repeat match goal with
                     | H : (_ =? _)%nat = _ |- _ => rewrite H
                     end;
              rewrite <- ?app_assoc, ?app_nil_r; reflexivity].

Lemma shape_start : shape_inv (main w e T).
Proof.
  unfold main, init. unfold_step. simpl.
  repeat (break_goal; simpl; try discriminate).
  all: shape_finish.
Qed.

Lemma shape_step (s : state) (i : input) :
  inv e s -> shape_inv s -> shape_inv (step w e T s i).
Proof.
  intros I H.
  destruct s as [cl sc li se m cs fin o].
  unfold step; simpl.
  destruct fin as [o'|]; [assumption|].
  pose proof (inv_tasks _ _ I) as H5. clear I.
  destruct cs as [|[pc c] [|t' cs']]; simpl in *; try tauto.
  all: clear H5.
  all: destruct i; simpl.
  all: unfold_step; simpl.
  all: repeat (break_goal; simpl; try discriminate).
  all: subst.
  all: solve [shape_finish].
Qed.

Lemma shape_run (sched : list input) : shape_inv (run w e T sched).
Proof.
  unfold run.
  assert (H : forall s, inv e s -> shape_inv s ->
              shape_inv (fold_left (step w e T) sched s)).
  { induction sched as [|i sched' IH]; simpl; intros s I L; [exact L|].
    apply IH; [now apply inv_step | now apply shape_step]. }
  apply H; [apply inv_start | apply shape_start].
Qed.

(** What [cleanup] adds to the trace starts with its own mark. *)
Lemma cleanup_out (c : Z) (s : state) :
  exists tl, out (cleanup w c s) = out s ++ ECleanup c :: tl.
Proof.
  destruct s as [cl sc li se m cs fin o].
  unfold_step; simpl.
  repeat (break_goal; simpl; try discriminate);
    rewrite <- ?app_assoc; simpl; eexists; reflexivity.
Qed.

(** C8: in every state the runner reaches, the sleeps taken so far
    are, in order, [min(200 * 1.25^k, 2000)] for k = 0, 1, ...: the
    sleep after the (k+1)-th failed probe has index k; the progress
    lines are exactly the multiples of five among the attempt counts 1
    to [a] reached so far, each once and in order, where [a] is the
    number of sleeps, less one while the runner is asleep.  Up to
    attempt 10 the cap is not reached; from attempt 11 on the sleep is
    2000.  In the trace the probes, the sleeps and the progress lines
    alternate as the loop prescribes: probe, sleep of [backoff 0], probe,
    sleep of [backoff 1], ..., with the progress line after the sleep of
    every attempt count that is a multiple of five and nowhere else.
    And while a probe is awaited after [a] sleeps, a probe that fails is
    followed at once by the sleep of [backoff a], and the end of that
    sleep by the progress line if [a + 1] is a multiple of five and then
    by the next probe, or by [cleanup(1)] when the time is up. *)
Theorem C8_backoff_and_progress (sched : list input) :
  let tr := out (run w e T sched) in
  let n := length (sleeps tr) in
  sleeps tr
  = List.map (fun k => Qmin (200 * Qpower 1.25 (Z.of_nat k)) 2000) (seq 0 n) /\
  (exists a, (n = a \/ n = S a) /\
     progress_lines tr
     = List.filter (fun k => (k mod 5 =? 0)%nat) (seq 1 a)) /\
  (forall k, (k <= 10)%nat ->
     (backoff k == 200 * Qpower 1.25 (Z.of_nat k))%Q) /\
  (forall k, (11 <= k)%nat -> (backoff k == 2000)%Q) /\
  loop_shape (loop_events tr) /\
  (forall start a,
     finished (run w e T sched) = None ->
     at_main (run w e T sched) = AwaitFetch start a ->
     a = n /\
     loop_events tr = waits a ++ [EProbe] /\
     out (run w e T (sched ++ [FetchSettled false]))
     = tr ++ [ESleep (backoff a)] /\
     exists rest,
       out (run w e T (sched ++ [FetchSettled false; BackoffElapsed]))
       = tr ++ [ESleep (backoff a)] ++
         (if (S a mod 5 =? 0)%nat then [EProgress (S a)] else []) ++ rest /\
       (rest = [EProbe] \/ exists tl, rest = ECleanup 1 :: tl)).
Proof.
  intros tr n. destruct (loop_run sched) as [L1 L2 L3].
  fold tr in L1, L2, L3. fold n in L1, L2, L3.
  pose proof (shape_run sched) as Sh. unfold shape_inv in Sh. fold tr in Sh.
  split; [exact L1|]. split.
  { destruct (at_main (run w e T sched)) eqn:M;
      try (exists n; split; [now left | exact L2]).
    exists attempt. destruct L3 as [L3 _]. rewrite <- L3 in L2.
    split; [now right | exact L2]. }
  split; [apply backoff_below_cap|]. split; [apply backoff_capped|].
  split.
  { destruct (at_main (run w e T sched)) eqn:M.
    - rewrite Sh. apply (shape_left 0).
    - rewrite Sh. apply shape_probing.
    - rewrite Sh. apply shape_asleep.
    - destruct Sh as [a ->]. apply shape_probing.
    - destruct Sh as [a [-> | ->]]; [apply shape_left | apply shape_probing]. }
  intros start a F M. rewrite M in L3, Sh. destruct L3 as (L3 & _ & _).
  split; [exact L3|]. split; [exact Sh|].
  destruct (next_test _ start a F M) as (E & _).
  cbv zeta in E. split.
  - rewrite run_app. simpl.
    now rewrite (step_probe_failed _ start a F M).
  - rewrite run_app, E. unfold waitForServer_loop, main_cleanup.
    destruct (now w (S (S a)) - start <? T).
    + exists [EProbe]. split; [|now left].
      destruct (S a mod 5 =? 0)%nat; simpl; now rewrite <- ?app_assoc.
    + match goal with
      | |- context [cleanup w 1 ?x] =>
          destruct (cleanup_out 1 x) as [tl Htl]
      end.
      exists (ECleanup 1 :: tl). split; [|right; now exists tl].
      rewrite Htl.
      destruct (S a mod 5 =? 0)%nat; simpl; now rewrite <- ?app_assoc.
Qed.

(** C7, as amended.  From any state the runner reaches while a probe is
    pending, the elapsed time is counted from the clock reading taken
    when [waitForServer] was entered, and when the probe settles without
    success and the sleep is over, the next test of the loop decides,
    for any clock: if the elapsed time is still below [T], one more
    probe is made and [cleanup] is not invoked; if it has reached [T]
    (equality included), no probe is made, [main] leaves the loop by
    calling [cleanup(1)] and never probes again, every exit from then on
    has code 1, and the process does exit with code 1 once the server's
    status has resolved and the pause is over.  If moreover every probe
    settles without success and the clock moves on by the time slept
    (200 ms at least), the test fails within the bound [T / 200 + 1] on
    the attempt count. *)
Theorem C7_wait_times_out (sched : list input) (start : Z) (a : nat) :
  let s := run w e T sched in
  finished s = None -> at_main s = AwaitFetch start a ->
  start = now w 0 /\
  (now w (S (S a)) - start < T ->
   at_main (run w e T (sched ++ [FetchSettled false; BackoffElapsed]))
   = AwaitFetch start (S a) /\
   count is_probe
     (out (run w e T (sched ++ [FetchSettled false; BackoffElapsed])))
   = S (count is_probe (out s)) /\
   count is_cleanup
     (out (run w e T (sched ++ [FetchSettled false; BackoffElapsed])))
   = count is_cleanup (out s)) /\
  (T <= now w (S (S a)) - start ->
   exists s1,
     run w e T (sched ++ [FetchSettled false; BackoffElapsed])
     = cleanup w 1 s1 /\
     at_main s1 = Returned /\ finished s1 = None /\
     count is_probe
       (out (run w e T (sched ++ [FetchSettled false; BackoffElapsed])))
     = count is_probe (out s) /\
     (forall sched',
        let s' := run w e T ((sched ++ [FetchSettled false; BackoffElapsed])
                             ++ sched') in
        at_main s' = Returned /\
        count is_probe (out s') = count is_probe (out s) /\
        forall c, finished s' = Some (Exited c) -> c = 1) /\
     finished (run w e T ((sched ++ [FetchSettled false; BackoffElapsed])
                          ++ [ServerExited; PauseElapsed]))
     = Some (Exited 1)) /\
  (now w 0 <= now w 1 ->
   (forall k, now w (S k) + 200 <= now w (S (S k))) ->
   exists n s1,
     (1 <= n)%nat /\ (a + n <= Z.to_nat (T / 200) + 1)%nat /\
     run w e T (sched ++ rounds n) = cleanup w 1 s1 /\
     at_main s1 = Returned /\ finished s1 = None /\
     (forall sched',
        let s' := run w e T (sched ++ rounds n ++ sched') in
        at_main s' = Returned /\
        count is_probe (out s')
        = count is_probe (out (run w e T (sched ++ rounds n))) /\
        forall c, finished s' = Some (Exited c) -> c = 1) /\
     finished (run w e T (sched ++ rounds n ++ [ServerExited; PauseElapsed]))
     = Some (Exited 1)).
Proof.
  intros s F M.
  pose proof (inv_run sched) as I. pose proof (loop_run sched) as L.
  fold s in I, L.
  pose proof (li_attempt _ _ _ L) as LA. rewrite M in LA.
  destruct LA as (_ & Hstart & LA).
  pose proof (inv_main _ _ I) as IM. rewrite M in IM. destruct IM as [_ T0].
  destruct (next_test s start a F M) as (E & F2 & P2 & C2 & T2).
  cbv zeta in E, F2, P2, C2, T2.
  set (s2 := if (S a mod 5 =? 0)%nat
             then emit (EProgress (S a))
                    (emit (ESleep (backoff a))
                       (set_main (AwaitBackoff start a) s))
             else emit (ESleep (backoff a))
                    (set_main (AwaitBackoff start a) s)) in *.
  assert (R : run w e T (sched ++ [FetchSettled false; BackoffElapsed])
              = waitForServer_loop w T start (S a) s2)
    by (rewrite run_app; exact E).
  split; [exact Hstart|]. split; [|split].
  - intros Hlt. rewrite R, loop_test_goes_on by assumption. simpl.
    rewrite !count_app, P2, C2. unfold count. simpl.
    repeat split; try reflexivity; lia.
  - intros Hge. rewrite loop_test_timeout in R by assumption.
    exists (set_main Returned s2).
    destruct (cleanup_keeps 1 (set_main Returned s2)) as (_ & CP & _).
    assert (P : count is_probe
                  (out (run w e T
                          (sched ++ [FetchSettled false; BackoffElapsed])))
                = count is_probe (out s))
      by (rewrite R, CP; exact P2).
    destruct (after_timeout _ (set_main Returned s2) R) as [K D];
      [reflexivity | exact F2 | simpl; congruence |].
    split; [exact R|]. split; [reflexivity|]. split; [exact F2|].
    split; [exact P|]. split; [|exact D].
    intros sched'. destruct (K sched') as (K1 & K2 & K3).
    repeat split; auto. congruence.
  - intros H0 H.
    pose proof (clock_bound H0 H) as HB.
    assert (Ha : (a <= Z.to_nat (T / 200))%nat)
      by (apply HB; rewrite <- Hstart; exact LA).
    destruct (wait_rounds _ HB (S (Z.to_nat (T / 200)) - a) s start a)
      as (n & s1 & Hn & En & M1 & F1 & T1); auto; try lia.
    exists n, s1.
    assert (Rn : run w e T (sched ++ rounds n) = cleanup w 1 s1)
      by (rewrite run_app; exact En).
    destruct (after_timeout _ s1 Rn M1 F1 T1) as [K D].
    split; [lia|]. split; [lia|]. split; [exact Rn|].
    split; [exact M1|]. split; [exact F1|]. split.
    + intros sched'. rewrite app_assoc. apply K.
    + rewrite app_assoc. exact D.
Qed.

(** *** While a probe is pending *)

Lemma resume_cleanups_keeps (i : input) (ts : list (cleanup_pc * Z))
    (s : state) :
  at_main (resume_cleanups w i ts s) = at_main s /\
  count is_probe (out (resume_cleanups w i ts s)) = count is_probe (out s) /\
  count is_cleanup (out (resume_cleanups w i ts s))
  = count is_cleanup (out s).
Proof.
  revert s. induction ts as [|[pc c] ts IH]; intros s; simpl; [auto|].
  destruct (finished s); [auto|].
  destruct (IH (resume_cleanup w i (pc, c) s)) as (M & P & C).
  rewrite M, P, C. clear.
  destruct s as [cl sc li se m cs fin o].
  destruct i, pc; unfold_step; simpl;
    repeat (break_goal; simpl; try discriminate); evs; repeat split; lia.
Qed.

(** The clock is read between two probes only: while the probe is
    pending, nothing but its settling, or a signal, makes [main] move,
    whatever else the event loop delivers and however late it is. *)
Lemma pending_probe_is_awaited (sched : list input) (s : state)
    (start : Z) (a : nat) :
  at_main s = AwaitFetch start a ->
  probe_pending sched ->
  let s' := fold_left (step w e T) sched s in
  at_main s' = AwaitFetch start a /\
  count is_probe (out s') = count is_probe (out s) /\
  count is_cleanup (out s') = count is_cleanup (out s).
Proof.
  intros M H. revert s M.
  induction H as [|i sched Hi _ IH]; intros s M; simpl; [auto|].
  assert (K : at_main (step w e T s i) = at_main s /\
              count is_probe (out (step w e T s i)) = count is_probe (out s) /\
              count is_cleanup (out (step w e T s i)) = count is_cleanup (out s)).
  { unfold step. destruct (finished s); [auto|].
    destruct i; try contradiction; unfold resume_main; rewrite ?M; auto.
    - destruct (serverChild s); [|auto].
      destruct (server_exited s); [auto|]. unfold deliver.
      match goal with
      | |- context [resume_cleanups w ?i ?l ?x] =>
          destruct (resume_cleanups_keeps i l x) as (A & B & C)
      end.
      rewrite A, B, C. auto.
    - unfold deliver.
      match goal with
      | |- context [resume_cleanups w ?i ?l ?x] =>
          destruct (resume_cleanups_keeps i l x) as (A & B & C)
      end.
      rewrite A, B, C. auto.
    - unfold deliver.
      match goal with
      | |- context [resume_cleanups w ?i ?l ?x] =>
          destruct (resume_cleanups_keeps i l x) as (A & B & C)
      end.
      rewrite A, B, C. auto. }
  destruct K as (K1 & K2 & K3).
  destruct (IH (step w e T s i)) as (A & B & C); [congruence|].
  repeat split; congruence.
Qed.

(** *** Every exit path terminates the server *)

Lemma split_before_last (x y : event) (l : list event) :
  In x l -> List.last l EProbe = y -> x <> y ->
  exists tr1 tr2, l = tr1 ++ x :: tr2 ++ [y].
Proof.
  intros Hin Hl Hne. apply in_split in Hin as (l1 & l2 & ->).
  destruct (exists_last (l := x :: l2)) as (l2' & z & E); [discriminate|].
  assert (Hz : z = y).
  { rewrite <- Hl. change (l1 ++ x :: l2) with (l1 ++ (x :: l2)).
    rewrite E, app_assoc. now rewrite List.last_last. }
  subst z. destruct l2' as [|x' l2']; simpl in E.
  - injection E as E _. congruence.
  - injection E as -> ->. now exists l1, l2'.
Qed.

(** X9: whenever the flexible runner calls [Deno.exit] after it spawned
    a server, it has called [kill("SIGTERM")] on that server before, and
    the exit is the last thing it does. *)
Lemma sigterm_before_exit (sched : list input) (cmd : list jsstring)
    (p : pid) (c : Z) :
  let s := run w e T sched in
  In (ESpawn ServerSite cmd (Some p)) (out s) ->
  finished s = Some (Exited c) ->
  exists tr1 tr2, out s = tr1 ++ EKill p SIGTERM :: tr2 ++ [EExit c].
Proof.
  intros s Hin Hc. pose proof (inv_run sched) as I. fold s in I.
  pose proof (inv_spawned _ _ I _ _ Hin) as Hs.
  destruct (inv_exit _ _ I c Hc) as (Hcl & Hl & _).
  apply split_before_last; [now apply (inv_term _ _ I) | exact Hl | discriminate].
Qed.

End Facts.

(** *** At concrete inputs *)

Lemma C10_empty_task_command_witness :
  e_task !! "BUILD_CMD" = Some (nil : jsstring) /\
  e_task !! "SERVE_CMD" = Some (nil : jsstring) /\
  e_task !! "TASK_CMD" = None /\
  finished (run w_ok e_task 30000 [Signal; ServerExited]) = Some (Exited 1).
Proof.
  split; [reflexivity|]. split; [reflexivity|]. split; [reflexivity|].
  apply (C10_empty_task_command w_ok e_task 30000 [Signal; ServerExited]);
    reflexivity.
Defined.

(** C4 as stated fails where only SERVE_CMD is set, to the empty string:
    direct mode is selected by the default build command, there is no
    serve command, and the build is spawned as child 4241. *)
Lemma C4_counterexample :
  ~ (directMode e_no_serve = true -> SERVE_CMD e_no_serve = None ->
     ~ child_started (out (run w_ok e_no_serve 30000 [BuildExited true]))).
Proof.
  intros H. apply H; [reflexivity | reflexivity |].
  exists BuildSite, [js "deno"; js "run"; js "-A"; js "dev.ts"; js "build"], 4241.
  left. reflexivity.
Qed.

Lemma C4_direct_mode_without_serve_command_witness :
  directMode e_no_serve = true /\ SERVE_CMD e_no_serve = None /\
  exists cmd,
    BUILD_CMD e_no_serve = Some cmd /\ cmd <> [] /\
    (forall p, spawnChild w_ok BuildSite cmd = Some p ->
       forall sched, build_pending sched ->
         (let s := run w_ok e_no_serve 30000 sched in
          finished s = None /\ at_main s = AwaitBuild /\
          out s = [ESpawn BuildSite cmd (Some p)]) /\
         (forall ok,
            let s := run w_ok e_no_serve 30000 (sched ++ [BuildExited ok]) in
            finished s = Some (Exited 1) /\
            out s = [ESpawn BuildSite cmd (Some p); ECleanup 1; EExit 1])) /\
    (spawnChild w_ok BuildSite cmd = None ->
       let s := run w_ok e_no_serve 30000 [] in
       finished s = Some (Exited 1) /\
       out s = [ESpawn BuildSite cmd None; ECleanup 1; EExit 1]) /\
    (forall ok,
       let s := run w_ok e_no_serve 30000 [BuildExited ok] in
       finished s = Some (Exited 1) /\
       out s = [ESpawn BuildSite cmd (spawnChild w_ok BuildSite cmd);
                ECleanup 1; EExit 1]) /\
    (forall sched,
       let s := run w_ok e_no_serve 30000 sched in
       serverChild s = None /\
       count (is_spawn_at ServerSite) (out s) = 0%nat /\
       forall c, finished s = Some (Exited c) -> c = 1).
Proof.
  split; [reflexivity|]. split; [reflexivity|].
  apply (C4_direct_mode_without_serve_command w_ok e_no_serve 30000);
    reflexivity.
Defined.

Lemma C7_wait_times_out_witness :
  finished (run w_ok e_task_cmd 1000 []) = None /\
  at_main (run w_ok e_task_cmd 1000 []) = AwaitFetch 0 0 /\
  0 = now w_ok 0 /\
  (now w_ok 2 - 0 < 1000 ->
   at_main (run w_ok e_task_cmd 1000 ([] ++ [FetchSettled false; BackoffElapsed]))
   = AwaitFetch 0 1 /\
   count is_probe
     (out (run w_ok e_task_cmd 1000 ([] ++ [FetchSettled false; BackoffElapsed])))
   = S (count is_probe (out (run w_ok e_task_cmd 1000 []))) /\
   count is_cleanup
     (out (run w_ok e_task_cmd 1000 ([] ++ [FetchSettled false; BackoffElapsed])))
   = count is_cleanup (out (run w_ok e_task_cmd 1000 []))) /\
  (1000 <= now w_ok 2 - 0 ->
   exists s1,
     run w_ok e_task_cmd 1000 ([] ++ [FetchSettled false; BackoffElapsed])
     = cleanup w_ok 1 s1 /\
     at_main s1 = Returned /\ finished s1 = None /\
     count is_probe
       (out (run w_ok e_task_cmd 1000 ([] ++ [FetchSettled false; BackoffElapsed])))
     = count is_probe (out (run w_ok e_task_cmd 1000 [])) /\
     (forall sched',
        let s' := run w_ok e_task_cmd 1000 (([] ++ [FetchSettled false; BackoffElapsed])
                             ++ sched') in
        at_main s' = Returned /\
        count is_probe (out s') = count is_probe (out (run w_ok e_task_cmd 1000 [])) /\
        forall c, finished s' = Some (Exited c) -> c = 1) /\
     finished (run w_ok e_task_cmd 1000 (([] ++ [FetchSettled false; BackoffElapsed])
                          ++ [ServerExited; PauseElapsed]))
     = Some (Exited 1)) /\
  (now w_ok 0 <= now w_ok 1 ->
   (forall k, now w_ok (S k) + 200 <= now w_ok (S (S k))) ->
   exists n s1,
     (1 <= n)%nat /\ (0 + n <= Z.to_nat (1000 / 200) + 1)%nat /\
     run w_ok e_task_cmd 1000 ([] ++ rounds n) = cleanup w_ok 1 s1 /\
     at_main s1 = Returned /\ finished s1 = None /\
     (forall sched',
        let s' := run w_ok e_task_cmd 1000 ([] ++ rounds n ++ sched') in
        at_main s' = Returned /\
        count is_probe (out s')
        = count is_probe (out (run w_ok e_task_cmd 1000 ([] ++ rounds n))) /\
        forall c, finished s' = Some (Exited c) -> c = 1) /\
     finished (run w_ok e_task_cmd 1000 ([] ++ rounds n ++ [ServerExited; PauseElapsed]))
     = Some (Exited 1)).
Proof.
  assert (F : finished (run w_ok e_task_cmd 1000 []) = None) by reflexivity.
  assert (M : at_main (run w_ok e_task_cmd 1000 []) = AwaitFetch 0 0)
    by reflexivity.
  exact (conj F (conj M
    (C7_wait_times_out w_ok e_task_cmd 1000 [] 0 0 F M))).
Defined.

(** C7 as stated fails where the first probe never settles (the server
    accepts the connection and does not answer): the clock is far past
    the timeout of 1000 ms, no probe has succeeded, and whatever else
    the event loop delivers, [cleanup] is never entered. *)
Lemma C7_counterexample :
  ~ (exists sched,
       probe_pending sched /\
       (1 <= count is_cleanup (out (run w_late e_task_cmd 1000 sched)))%nat).
Proof.
  intros (sched & Hp & Hc).
  destruct (pending_probe_is_awaited w_late e_task_cmd 1000 sched
              (main w_late e_task_cmd 1000) 0 0 eq_refl Hp) as (_ & _ & H).
  unfold run in Hc. rewrite H in Hc. vm_compute in Hc. lia.
Qed.

(** The run behind the witness: four probes, then [cleanup(1)]. *)
Example timeout_run :
  out (run w_ok e_task_cmd 1000 (rounds 4 ++ [ServerExited; PauseElapsed]))
  = [ESpawn ServerSite [js "deno"; js "task"; js "serve"] (Some 4242);
     EProbe; ESleep (backoff 0); EProbe; ESleep (backoff 1);
     EProbe; ESleep (backoff 2); EProbe; ESleep (backoff 3);
     ECleanup 1; EKill 4242 SIGTERM; EKill 4242 SIGKILL; EExit 1].
Proof. reflexivity. Qed.

(** After the race of line 189 the pid, which is never 0, is all that
    line 193 looks at: SIGKILL is sent whoever won the race. *)
Lemma sigkill_whoever_wins (w : World) (i : input) (c : Z) (p : pid)
    (s : state) :
  serverChild s = Some p -> p <> 0 ->
  i = ServerExited \/ i = GraceElapsed ->
  exists s', resume_cleanup w i (AwaitRace, c) s = s' /\
             In (EKill p SIGKILL) (out s').
Proof.
  intros Hs Hp Hi. eexists. split; [reflexivity|].
  assert (E : resume_cleanup w i (AwaitRace, c) s = after_race w c s)
    by (destruct Hi; subst; reflexivity).
  rewrite E. unfold after_race. rewrite Hs.
  destruct (Z.eqb_spec p 0); [contradiction|].
  destruct (sigkill w p); unfold await_final, suspend, exit; simpl;
    rewrite ?Hs; simpl; repeat (break_goal; simpl);
    rewrite ?in_app_iff; simpl; auto.
Qed.

(** C6, where the tests pass and the server exits right after SIGTERM,
    the 5000 ms timer never firing: while [cleanup(0)] waits at the race
    no SIGKILL has been sent; the server's exit resumes it, and it sends
    SIGKILL to the pid all the same, then exits. *)
Theorem C6_sigkill_after_prompt_exit :
  let before :=
    run w_ok e_task_cmd 30000 [FetchSettled true; TestExited true] in
  let after :=
    run w_ok e_task_cmd 30000 [FetchSettled true; TestExited true; ServerExited] in
  cleanups before = [(AwaitRace, 0)] /\
  count is_sigkill (out before) = 0%nat /\
  out after = out before ++ [EKill 4242 SIGKILL; EExit 0] /\
  In (EKill 4242 SIGTERM) (out before) /\
  finished after = Some (Exited 0).
Proof. repeat split; try reflexivity. vm_compute. tauto. Qed.

End FlexibleFacts.

(** ** The first runner *)

Module LegacyFacts.
Import Legacy.

(** C2, at a run of the first runner whose server is ready at the first
    probe and whose tests fail: the server was spawned as child 4242, the
    process exits with code 1 through the [Deno.exit(1)] of line 70, and
    no signal was ever sent to the server: the [finally] block of lines
    78-83 did not run. *)
Theorem C2_first_runner_exit_skips_finally :
  let s := run w_ok [FetchSettled true; TestExited false] in
  out s = [ESpawn ServerSite [js "deno"; js "task"; js "dev"] (Some 4242);
           EProbe;
           ESpawn TestSite [js "deno"; js "task"; js "test:e2e"] (Some 4243);
           EExit 1] /\
  finished s = Some (Exited 1) /\
  count is_kill (out s) = 0%nat.
Proof. repeat split; reflexivity. Qed.

(** The same run with passing tests does reach the [finally] block. *)
Example first_runner_success :
  out (run w_ok [FetchSettled true; TestExited true; ServerExited])
  = [ESpawn ServerSite [js "deno"; js "task"; js "dev"] (Some 4242);
     EProbe;
     ESpawn TestSite [js "deno"; js "task"; js "test:e2e"] (Some 4243);
     EKill 4242 SIGTERM] /\
  finished (run w_ok [FetchSettled true; TestExited true; ServerExited])
  = Some (Exited 0).
Proof. split; reflexivity. Qed.

End LegacyFacts.

(** ** More on commands *)

Section Commands.

Import Log.

Lemma Splits_words (raw : jsstring) (ts : list jsstring) :
  Splits raw ts -> Forall word ts.
Proof. induction 1; constructor; auto. Qed.

Lemma parseCmd_words (raw : jsstring) : Forall word (parseCmd raw).
Proof.
  destruct (Splits_exists raw) as [ts H].
  rewrite (Splits_parseCmd _ _ H). now apply Splits_words with raw.
Qed.

(** X3: [parseCmd] gives the empty command, which [spawnChild] cannot
    spawn, exactly for a string of white space only. *)
Theorem parseCmd_nil_iff (raw : jsstring) : parseCmd raw = [] <-> blank raw.
Proof.
  split.
  - intros E. destruct (Splits_exists raw) as [ts H].
    rewrite (Splits_parseCmd _ _ H) in E. subst ts. now inversion H.
  - intros H. apply Splits_parseCmd. now constructor.
Qed.

Lemma blank_or_not (raw : jsstring) : blank raw \/ ~ blank raw.
Proof.
  destruct (trim raw) as [|c r] eqn:E.
  - left. now apply trim_nil_iff.
  - right. intros H. apply trim_nil_iff in H. congruence.
Qed.

Lemma parseCmd_not_nil (raw : jsstring) : ~ blank raw -> parseCmd raw <> [].
Proof.
  intros H E. apply H. destruct (Splits_exists raw) as [ts S0].
  rewrite (Splits_parseCmd _ _ S0) in E. subst ts. now inversion S0.
Qed.

Lemma resolved_shape (c : option (list jsstring)) (raw : jsstring) :
  (blank raw -> c = None) -> (~ blank raw -> c = Some (parseCmd raw)) ->
  (c = None <-> blank raw) /\
  (forall cmd, c = Some cmd -> cmd = parseCmd raw /\ cmd <> []).
Proof.
  intros H1 H2. destruct (blank_or_not raw) as [Hb|Hb].
  - rewrite (H1 Hb). split; [tauto | intros; discriminate].
  - rewrite (H2 Hb). split.
    + split; [discriminate | contradiction].
    + intros cmd E. injection E as <-.
      split; [reflexivity | now apply parseCmd_not_nil].
Qed.

(** X2: the build command and the serve command are absent exactly when
    their raw string (the variable, or the default when it is not set)
    is blank; when present they are the split of the raw string and
    never the empty command. *)
Theorem commands_resolved (e : gmap string jsstring) :
  let build := env e "BUILD_CMD" (js "deno run -A dev.ts build") in
  let serve := env e "SERVE_CMD" (js "deno serve -A _fresh/server.js") in
  (BUILD_CMD e = None <-> blank build) /\
  (forall cmd, BUILD_CMD e = Some cmd -> cmd = parseCmd build /\ cmd <> []) /\
  (SERVE_CMD e = None <-> blank serve) /\
  (forall cmd, SERVE_CMD e = Some cmd -> cmd = parseCmd serve /\ cmd <> []).
Proof.
  intros build serve.
  destruct (BUILD_CMD_resolved e) as [B1 B2].
  destruct (SERVE_CMD_resolved e) as [S1 S2].
  fold build in B1, B2. fold serve in S1, S2.
  destruct (resolved_shape _ _ B1 B2) as [P1 P2].
  destruct (resolved_shape _ _ S1 S2) as [P3 P4].
  auto.
Qed.

(** X4: commands compose: the split of two strings joined by white
    space is the split of the first followed by the split of the
    second. *)
Lemma parseCmd_app_sep (a sp b : jsstring) :
  blank sp -> sp <> [] -> parseCmd (a ++ sp ++ b) = parseCmd a ++ parseCmd b.
Proof.
  intros Hsp Hne. destruct (Splits_exists a) as [ta H].
  rewrite (Splits_parseCmd _ _ H).
  induction H as [sp0 Hsp0 | sp0 t rest ts Hsp0 Ht Hgap _ IH]; simpl.
  - now rewrite !parseCmd_blank_app.
  - rewrite <- !app_assoc. rewrite parseCmd_blank_app by assumption.
    rewrite parseCmd_word_app; [now rewrite IH | assumption |].
    destruct rest as [|c r]; simpl in *; [|assumption].
    destruct sp as [|c sp']; [congruence|]. simpl. now inversion Hsp.
Qed.

Lemma parseCmd_join (ts : list jsstring) :
  Forall word ts -> parseCmd (join (js " ") ts) = ts.
Proof.
  induction 1 as [|t ts Ht Hts IH]; [reflexivity|].
  destruct ts as [|t' ts'].
  - simpl. rewrite <- (app_nil_r t) at 1.
    rewrite parseCmd_word_app; [reflexivity | assumption | exact I].
  - change (join (js " ") (t :: t' :: ts'))
      with (t ++ js " " ++ join (js " ") (t' :: ts')).
    rewrite parseCmd_word_app; [| assumption | reflexivity].
    rewrite (parseCmd_blank_app (js " ")) by (repeat constructor).
    now rewrite IH.
Qed.

Lemma parseCmd_app_sep_witness :
  blank (js "  ") /\ js "  " <> [] /\
  parseCmd (js "deno task" ++ js "  " ++ js "serve")
  = parseCmd (js "deno task") ++ parseCmd (js "serve").
Proof.
  assert (H1 : blank (js "  ")) by (repeat constructor).
  assert (H2 : js "  " <> []) by (vm_compute; discriminate).
  exact (conj H1 (conj H2
    (parseCmd_app_sep (js "deno task") (js "  ") (js "serve") H1 H2))).
Defined.

(** X5: the command that lines 226 and 266 log, the words joined by
    one space, splits back into the command: joining is a right inverse
    of [parseCmd] on lists of words, and splitting what was logged gives
    the command again. *)
Theorem command_line_round_trip (ts : list jsstring) (raw : jsstring) :
  (Forall word ts -> parseCmd (join (js " ") ts) = ts) /\
  parseCmd (join (js " ") (parseCmd raw)) = parseCmd raw.
Proof.
  split; [apply parseCmd_join|]. apply parseCmd_join, parseCmd_words.
Qed.

Lemma word_shown (t : jsstring) : word t -> shown t = t.
Proof.
  intros [_ H]. unfold shown.
  assert (E : includes_space t = false); [|now rewrite E].
  unfold includes_space. induction H as [|c t Hc _ IH]; [reflexivity|].
  cbn [existsb]. rewrite IH.
  destruct (N.eqb_spec 32 c) as [<-|]; [discriminate Hc | reflexivity].
Qed.

(** X6: the quoting of line 132 never applies to a command that
    [parseCmd] made: no word holds a space, so the line logged is the
    prefix followed by the words joined by one space, and its command
    part splits back into the command. *)
Theorem spawning_line_unquoted (raw : jsstring) :
  spawning_line (parseCmd raw)
  = js "> spawning: " ++ join (js " ") (parseCmd raw) /\
  parseCmd (join (js " ") (List.map shown (parseCmd raw))) = parseCmd raw.
Proof.
  assert (E : List.map shown (parseCmd raw) = parseCmd raw).
  { pose proof (parseCmd_words raw) as H.
    induction H as [|t ts Ht _ IH]; [reflexivity|].
    simpl. now rewrite (word_shown t Ht), IH. }
  unfold spawning_line. rewrite E. split; [reflexivity|].
  apply parseCmd_join, parseCmd_words.
Qed.

End Commands.

(** ** More on the flexible runner *)

Module FlexibleMore.
Import Flexible FlexibleInv FlexibleInv2 FlexibleFacts.

Section Facts.

Variable w : World.
Variable e : gmap string jsstring.
Variable T : Z.

(** One case of a step, for [more_inv]. *)
Ltac more_tidy :=
  repeat match goal with
  | H : forall c, Some (Exited ?k) <> Some (Exited c) |- _ =>
      destruct (H k eq_refl)
  | H : (_ <? _) = true |- _ => apply Z.ltb_lt in H
  | H : (forall c : Z, ?x <> Some (Exited c)) -> _ |- _ =>
      let K := fresh in
      assert (K : forall c : Z, x <> Some (Exited c))
        by (intros; discriminate);
      specialize (H K); clear K
  | H : ?x = _ |- context [match ?x with _ => _ end] => rewrite H
  | H : ?x = _, H' : context [match ?x with _ => _ end] |- _ =>
      rewrite H in H'
  | H : length _ = _ |- _ => rewrite H in *
  end.

Ltac more_finish :=
  constructor; simpl; intros; tidy; more_tidy; subst; evs; simpl in *;
  rewrite ?Nat.add_0_r, ?Nat.add_1_r in *; tidy; more_tidy;
  repeat split; intros; tidy; more_tidy; subst; simpl in *; close.

Lemma more_start : more_inv w e T (main w e T).
Proof.
  unfold main, init. unfold_step. simpl.
  repeat (break_goal; simpl; try discriminate).
  all: more_finish.
Qed.

Lemma more_step (s : state) (i : input) :
  inv e s -> more_inv w e T s -> more_inv w e T (step w e T s i).
Proof.
  intros I M.
  destruct s as [cl sc li se m cs fin o].
  unfold step; simpl.
  destruct fin as [o'|]; [assumption|].
  pose proof (inv_tasks _ _ I) as H5. pose proof (inv_called _ _ I) as H2.
  pose proof (inv_main _ _ I) as H12. pose proof (inv_listening _ _ I) as H7.
  pose proof (inv_noserver _ _ I) as H6.
  clear I.
  destruct M as [M1 M2 M3 M4 M5 M6 M7 M8]; simpl in *.
  destruct cs as [|[pc c] [|t' cs']]; simpl in *; try tauto.
  all: destruct i; simpl.
  all: unfold_step; simpl.
  all: repeat (break_goal; simpl; try discriminate).
  all: subst.
  all: try (constructor; simpl; assumption).
  all: more_finish.
Qed.

Lemma more_run (sched : list input) : more_inv w e T (run w e T sched).
Proof.
  unfold run.
  assert (H : forall s, inv e s -> more_inv w e T s ->
              more_inv w e T (fold_left (step w e T) sched s)).
  { induction sched as [|i sched' IH]; simpl; intros s I M; [exact M|].
    apply IH; [now apply inv_step | now apply more_step]. }
  apply H; [apply inv_start | apply more_start].
Qed.

(** One case of a step, for [hist_inv]. *)
Ltac hist_finish :=
  constructor; simpl; intros; unfold count in *;
  rewrite ?List.filter_app, ?List.length_app in *; simpl in *;
  tidy; subst; simpl in *;
  repeat match goal with
         | H : (1 <= _)%nat -> _ |- _ => specialize (H ltac:(lia))
         end;
  rewrite ?in_app_iff; simpl; close;
  try solve [exfalso; lia | exfalso; congruence].

Lemma hist_start : hist_inv e [] (main w e T).
Proof.
  unfold main, init. unfold_step. simpl.
  repeat (break_goal; simpl; try discriminate).
  all: hist_finish.
Qed.

Lemma hist_step (sched : list input) (s : state) (i : input) :
  inv e s -> hist_inv e sched s ->
  hist_inv e (sched ++ [i]) (step w e T s i).
Proof.
  intros I H.
  destruct s as [cl sc li se m cs fin o].
  unfold step; simpl.
  pose proof (inv_tasks _ _ I) as H5. pose proof (inv_main _ _ I) as H12.
  pose proof (inv_noserver _ _ I) as H6. pose proof (inv_exit _ _ I) as H10.
  clear I.
  destruct H as [G1 G2 G3 G4 G5]; simpl in *.
  destruct fin as [o'|].
  { constructor; simpl.
    - intros; rewrite in_app_iff; left; auto.
    - intros; rewrite in_app_iff; left; auto.
    - destruct cs as [|[pc c] [|t' cs']]; auto.
      intros; rewrite in_app_iff; left; auto.
    - intros; rewrite in_app_iff; left; auto.
    - intros; rewrite in_app_iff; left; auto. }
  destruct cs as [|[pc c] [|t' cs']]; simpl in *; try tauto.
  all: destruct i; simpl.
  all: unfold_step; simpl.
  all: repeat (break_goal; simpl; try discriminate).
  all: subst.
  all: hist_finish.
Qed.

Lemma hist_run (sched : list input) : hist_inv e sched (run w e T sched).
Proof.
  induction sched as [|i sched IH] using rev_ind; [apply hist_start|].
  rewrite run_app. simpl. apply hist_step; [apply inv_run | exact IH].
Qed.

(** X7: the flexible runner exits with code 0 or 1 only, and with code 0
    only when the event loop delivered a probe that succeeded, a test
    run that succeeded and, in direct mode with a build command, a build
    that succeeded. *)
Theorem exit_code_meaning (sched : list input) (c : Z) :
  finished (run w e T sched) = Some (Exited c) ->
  c = 1 \/
  c = 0 /\ In (FetchSettled true) sched /\ In (TestExited true) sched /\
  (directMode e = true -> BUILD_CMD e <> None ->
   In (BuildExited true) sched).
Proof.
  intros F. pose proof (inv_run w e T sched) as I.
  pose proof (hist_run sched) as H.
  destruct (inv_exit _ _ I c F) as (_ & _ & [Hc | (Hc & _ & Ht)]);
    [now left | right].
  subst c. repeat split.
  - now apply (hi_ready _ _ _ H).
  - now apply (hi_exit _ _ _ H).
  - apply (hi_build _ _ _ H). intros N.
    apply (inv_noserver _ _ I) in N. lia.
Qed.

(** X8: the stages come in order.  In direct mode with a build command
    a server child exists only after a build that succeeded; the test
    command is spawned only while a server child exists and after a
    probe that succeeded. *)
Theorem stages_in_order (sched : list input) :
  let s := run w e T sched in
  (forall cmd p, In (ESpawn ServerSite cmd (Some p)) (out s) ->
     directMode e = true -> BUILD_CMD e <> None ->
     In (BuildExited true) sched) /\
  ((1 <= count (is_spawn_at TestSite) (out s))%nat ->
     In (FetchSettled true) sched /\ (1 <= count is_probe (out s))%nat /\
     exists p, serverChild s = Some p).
Proof.
  intros s. pose proof (inv_run w e T sched) as I.
  pose proof (hist_run sched) as H. pose proof (more_run sched) as M.
  fold s in I, H, M. split.
  - intros cmd p Hin. apply (hi_build _ _ _ H).
    rewrite (inv_spawned _ _ I _ _ Hin). discriminate.
  - intros Ht. repeat split.
    + now apply (hi_ready _ _ _ H).
    + destruct (mi_tested _ _ _ _ M); lia.
    + destruct (serverChild s) as [p|] eqn:E; [now exists p|].
      apply (inv_noserver _ _ I) in E. lia.
Qed.

(** X10: when the runner exits after it spawned a server, either the
    server's status had resolved, or [cleanup] was invoked a second time
    (the guard of line 174 ends the process at once). *)
Theorem exit_waits_for_server (sched : list input) (cmd : list jsstring)
    (p : pid) (c : Z) :
  let s := run w e T sched in
  In (ESpawn ServerSite cmd (Some p)) (out s) ->
  finished s = Some (Exited c) ->
  In ServerExited sched \/ (2 <= count is_cleanup (out s))%nat.
Proof.
  intros s Hin F. pose proof (inv_run w e T sched) as I.
  pose proof (hist_run sched) as H. pose proof (more_run sched) as M.
  fold s in I, H, M.
  destruct (mi_exit _ _ _ _ M c F) as [Hx|Hx].
  - rewrite (inv_spawned _ _ I _ _ Hin). discriminate.
  - left. now apply (hi_server _ _ _ H).
  - now right.
Qed.

(** X11: when the clock does not go back before the first probe and
    moves on by 200 ms at least from one test of the loop to the next,
    the runner makes [timeoutMs / 200 + 1] probes at most, whatever the
    event loop delivers. *)
Theorem probes_bounded (sched : list input) :
  now w 0 <= now w 1 ->
  (forall k, now w (S k) + 200 <= now w (S (S k))) ->
  (count is_probe (out (run w e T sched)) <= Z.to_nat (T / 200) + 1)%nat.
Proof.
  intros H0 H1. pose proof (more_run sched) as M.
  destruct (mi_passed _ _ _ _ M) as [E|E]; [lia|].
  destruct (count is_probe (out (run w e T sched))) as [|k]; [lia|].
  pose proof (clock_bound w T H0 H1 k E). lia.
Qed.

(** X12: when the time is up at the first test of the loop (a timeout
    of 0, say), the runner never probes and never spawns the tests, and
    every exit has code 1. *)
Theorem no_time_no_probe (sched : list input) :
  T <= now w 1 - now w 0 ->
  let s := run w e T sched in
  count is_probe (out s) = 0%nat /\
  count (is_spawn_at TestSite) (out s) = 0%nat /\
  forall c, finished s = Some (Exited c) -> c = 1.
Proof.
  intros HT s. pose proof (inv_run w e T sched) as I.
  pose proof (more_run sched) as M. fold s in I, M.
  assert (P : count is_probe (out s) = 0%nat)
    by (destruct (mi_first _ _ _ _ M); [assumption | lia]).
  assert (Q : count (is_spawn_at TestSite) (out s) = 0%nat)
    by (destruct (mi_tested _ _ _ _ M); [assumption | lia]).
  repeat split; [assumption | assumption |].
  intros c F. destruct (inv_exit _ _ I c F) as (_ & _ & [Hc | (_ & _ & Ht)]);
    [assumption | lia].
Qed.

(** X13: nothing is retried: in a run the build command, the server
    command and the test command are spawned once at most each. *)
Theorem spawned_once (sched : list input) :
  let s := run w e T sched in
  (count (is_spawn_at BuildSite) (out s) <= 1)%nat /\
  (count (is_spawn_at ServerSite) (out s) <= 1)%nat /\
  (count (is_spawn_at TestSite) (out s) <= 1)%nat.
Proof. intros s. apply (mi_once _ _ _ _ (more_run sched)). Qed.

(** X14: of the signals that reach the runner while it is suspended
    at an [await] (SIGINT or SIGTERM, the only ones the event loop
    delivers here), each one is handled by [cleanup(1)] at every [await]
    but that of the build of direct mode: [main] installs the listeners
    of lines 254-255 before its first [await] past the build.  At the
    build's [await] no listener exists and the signal ends the runner;
    the spawn of the build is then all that happened. *)
Theorem signal_at_an_await (sched : list input) :
  let s := run w e T sched in
  (finished s = None -> at_main s <> AwaitBuild ->
   run w e T (sched ++ [Signal]) = cleanup w 1 s) /\
  (finished s = None -> at_main s = AwaitBuild ->
   finished (run w e T (sched ++ [Signal])) = Some KilledBySignal /\
   out (run w e T (sched ++ [Signal])) = out s) /\
  (finished s = Some KilledBySignal ->
   directMode e = true /\
   exists cmd p, BUILD_CMD e = Some cmd /\
                 out s = [ESpawn BuildSite cmd (Some p)]).
Proof.
  intros s. pose proof (inv_run w e T sched) as I.
  pose proof (more_run sched) as M. fold s in I, M.
  assert (R : run w e T (sched ++ [Signal]) = step w e T s Signal)
    by now rewrite run_app.
  rewrite R. clear R. split; [|split].
  - intros F A. unfold step. rewrite F.
    destruct (listening s) eqn:L; [reflexivity|].
    destruct (mi_deaf _ _ _ _ M L) as (_ & B & _); [|contradiction].
    intros c. rewrite F. discriminate.
  - intros F A. unfold step. rewrite F.
    pose proof (inv_main _ _ I) as K. rewrite A in K. destruct K as [K _].
    destruct (inv_noserver _ _ I K) as (-> & _). split; reflexivity.
  - intros F. pose proof (inv_killed _ _ I F) as N.
    destruct (inv_noserver _ _ I N) as (L & _).
    destruct (mi_deaf _ _ _ _ M L) as (D & _ & B).
    { intros c. rewrite F. discriminate. }
    split; [assumption|].
    destruct (BUILD_CMD e) as [cmd|]; [|contradiction].
    destruct B as [B1 B2].
    destruct (spawnChild w BuildSite cmd) as [p|]; [|congruence].
    now exists cmd, p.
Qed.

(** A waiting [cleanup] ends the process once the server's status has
    resolved and the pause is over, also when the grace timer comes
    first. *)
Lemma drain_cleaned (s : state) :
  inv e s -> more_inv w e T s -> cleaned s = true -> finished s = None ->
  (exists c, finished (fold_left (step w e T) [ServerExited; PauseElapsed] s)
             = Some (Exited c)) /\
  (exists c, finished (fold_left (step w e T)
                         [GraceElapsed; PauseElapsed; ServerExited] s)
             = Some (Exited c)).
Proof.
  intros I M C F.
  pose proof (inv_tasks _ _ I) as H5. pose proof (mi_waiting _ _ _ _ M C F) as W.
  clear I M. destruct s as [cl sc li se m cs fin o]. simpl in *. subst.
  destruct cs as [|[pc c] [|t' cs']]; simpl in *; try tauto.
  destruct H5 as (_ & Hsc & _ & Hse & _).
  destruct sc as [p|]; [|congruence].
  destruct pc, se; try (specialize (Hse ltac:(discriminate)); discriminate).
  all: split.
  all: unfold_step; simpl.
  all: repeat (break_goal; simpl; try discriminate); eauto.
Qed.

(** X15: once [cleanup] has been entered, the runner does exit: when
    the server's status resolves and then the 200 ms pause elapses, and
    also when the 5000 ms grace timer fires first. *)
Theorem cleanup_completes (sched : list input) :
  cleaned (run w e T sched) = true ->
  (exists c, finished (run w e T (sched ++ [ServerExited; PauseElapsed]))
             = Some (Exited c)) /\
  (exists c, finished (run w e T (sched ++
                          [GraceElapsed; PauseElapsed; ServerExited]))
             = Some (Exited c)).
Proof.
  intros C. pose proof (inv_run w e T sched) as I.
  pose proof (more_run sched) as M. rewrite !run_app.
  destruct (finished (run w e T sched)) as [o|] eqn:F.
  - rewrite !(finished_stuck w e T _ _ o F), F.
    destruct o as [c|]; [split; now exists c|].
    exfalso. pose proof (inv_killed _ _ I F) as N.
    destruct (inv_noserver _ _ I N) as (L & _).
    destruct (mi_deaf _ _ _ _ M L) as (_ & B & _).
    { intros c. rewrite F. discriminate. }
    pose proof (inv_main _ _ I) as K. rewrite B in K.
    destruct K as [_ K]. congruence.
  - now apply drain_cleaned.
Qed.

(** X16: while a [cleanup] is waiting, a further invocation ends the
    process at once with its own exit code: a second signal exits with
    code 1, and the tests' result, when it comes after a signal, exits
    with the code of the tests; nothing is sent to the server then. *)
Theorem second_cleanup_exits_at_once (sched : list input) :
  let s := run w e T sched in
  cleaned s = true -> finished s = None ->
  (finished (run w e T (sched ++ [Signal])) = Some (Exited 1) /\
   out (run w e T (sched ++ [Signal])) = out s ++ [ECleanup 1; EExit 1]) /\
  (forall ok : bool, at_main s = AwaitTest ->
     finished (run w e T (sched ++ [TestExited ok]))
     = Some (Exited (if ok then 0 else 1)) /\
     out (run w e T (sched ++ [TestExited ok]))
     = out s ++ [ECleanup (if ok then 0 else 1);
                 EExit (if ok then 0 else 1)]).
Proof.
  intros s C F. pose proof (inv_run w e T sched) as I.
  pose proof (more_run sched) as M. fold s in I, M.
  assert (L : listening s = true).
  { pose proof (mi_waiting _ _ _ _ M C F) as W.
    pose proof (inv_tasks _ _ I) as K.
    destruct (cleanups s) as [|[pc c] [|t' cs']]; try tauto.
    apply (inv_listening _ _ I), K. }
  assert (R : forall i, run w e T (sched ++ [i]) = step w e T s i)
    by (intros; now rewrite run_app).
  clearbody s. split.
  - rewrite R. unfold step. rewrite F, L.
    rewrite cleanup_again by assumption. simpl.
    now rewrite <- app_assoc.
  - intros ok A. rewrite R. unfold step, resume_main, main_cleanup.
    rewrite F, A.
    rewrite cleanup_again by assumption. simpl.
    now rewrite <- app_assoc.
Qed.

(** From the tests' result to the end of the run. *)
Lemma tests_path (s : state) (ok : bool) :
  inv e s ->
  at_main s = AwaitTest -> cleaned s = false -> finished s = None ->
  let s' := fold_left (step w e T)
              [TestExited ok; ServerExited; PauseElapsed] s in
  finished s' = Some (Exited (if ok then 0 else 1)) /\
  count (is_spawn_at TestSite) (out s')
  = count (is_spawn_at TestSite) (out s) /\
  count is_sigterm (out s') = 1%nat.
Proof.
  intros I A C F.
  pose proof (inv_tasks _ _ I) as H5. pose proof (inv_main _ _ I) as H12.
  pose proof (inv_fresh _ _ I) as H1.
  clear I. destruct s as [cl sc li se m cs fin o]. simpl in *. subst.
  destruct H12 as [Hsc Ht]. destruct (H1 eq_refl) as (K1 & K2 & K3 & _).
  clear H1.
  destruct cs as [|[pc c] [|t' cs']]; simpl in *;
    [| destruct H5; discriminate | contradiction].
  destruct sc as [p|]; [|congruence].
  destruct ok, se.
  all: unfold_step; simpl.
  all: repeat (break_goal; simpl; try discriminate).
  all: evs; repeat split; try reflexivity; lia.
Qed.

Lemma probe_ready (s : state) (start : Z) (a : nat) (q : pid) :
  inv e s ->
  at_main s = AwaitFetch start a -> finished s = None ->
  spawnChild w TestSite (TEST_CMD e) = Some q ->
  let s' := step w e T s (FetchSettled true) in
  at_main s' = AwaitTest /\ cleaned s' = cleaned s /\ finished s' = None /\
  count (is_spawn_at TestSite) (out s') = 1%nat.
Proof.
  intros I A F Q. pose proof (inv_main _ _ I) as H12.
  rewrite A in H12. destruct H12 as [_ Ht].
  unfold step, resume_main, run_tests. rewrite F, A, Q. simpl.
  repeat split; auto. rewrite count_app, Ht. reflexivity.
Qed.

(** X17: when a probe succeeds before any cleanup and the test command
    can be spawned, the tests run once, the server gets SIGTERM once,
    and after the server's status has resolved and the pause is over
    the runner has exited with code 0 if the tests succeeded and with
    code 1 if not. *)
Theorem ready_probe_runs_tests (sched : list input) (start : Z) (a : nat)
    (q : pid) (ok : bool) :
  let s := run w e T sched in
  at_main s = AwaitFetch start a -> cleaned s = false -> finished s = None ->
  spawnChild w TestSite (TEST_CMD e) = Some q ->
  let s' := run w e T (sched ++ [FetchSettled true; TestExited ok;
                                  ServerExited; PauseElapsed]) in
  finished s' = Some (Exited (if ok then 0 else 1)) /\
  count (is_spawn_at TestSite) (out s') = 1%nat /\
  count is_sigterm (out s') = 1%nat.
Proof.
  intros s A C F Q s'.
  pose proof (inv_run w e T sched) as I. fold s in I.
  destruct (probe_ready s start a q I A F Q) as (A1 & C1 & F1 & T1).
  assert (I1 : inv e (step w e T s (FetchSettled true)))
    by now apply inv_step.
  rewrite C in C1.
  destruct (tests_path _ ok I1 A1 C1 F1) as (R1 & R2 & R3).
  unfold s'. rewrite run_app. fold s.
  change (fold_left (step w e T)
            [FetchSettled true; TestExited ok; ServerExited; PauseElapsed] s)
    with (fold_left (step w e T)
            [TestExited ok; ServerExited; PauseElapsed]
            (step w e T s (FetchSettled true))).
  repeat split; congruence.
Qed.

End Facts.

Lemma exit_code_meaning_witness :
  let sched := [BuildExited true; FetchSettled true; TestExited true;
                ServerExited] in
  finished (run w_ok e_unset 30000 sched) = Some (Exited 0) /\
  (0 = 1 \/
   0 = 0 /\ In (FetchSettled true) sched /\ In (TestExited true) sched /\
   (directMode e_unset = true -> BUILD_CMD e_unset <> None ->
    In (BuildExited true) sched)).
Proof.
  intros sched.
  assert (F : finished (run w_ok e_unset 30000 sched) = Some (Exited 0))
    by reflexivity.
  exact (conj F (exit_code_meaning w_ok e_unset 30000 sched 0 F)).
Defined.

Lemma exit_waits_for_server_witness :
  let sched := [FetchSettled true; TestExited true; ServerExited] in
  let s := run w_ok e_task_cmd 30000 sched in
  In (ESpawn ServerSite [js "deno"; js "task"; js "serve"] (Some 4242))
     (out s) /\
  finished s = Some (Exited 0) /\
  (In ServerExited sched \/ (2 <= count is_cleanup (out s))%nat).
Proof.
  intros sched s.
  assert (H : In (ESpawn ServerSite [js "deno"; js "task"; js "serve"]
                    (Some 4242)) (out s)) by (left; reflexivity).
  assert (F : finished s = Some (Exited 0)) by reflexivity.
  exact (conj H (conj F
    (exit_waits_for_server w_ok e_task_cmd 30000 sched _ _ _ H F))).
Defined.

Lemma probes_bounded_witness :
  now w_ok 0 <= now w_ok 1 /\
  (forall k, now w_ok (S k) + 200 <= now w_ok (S (S k))) /\
  (count is_probe (out (run w_ok e_task_cmd 1000 (rounds 9)))
   <= Z.to_nat (1000 / 200) + 1)%nat.
Proof.
  assert (H0 : now w_ok 0 <= now w_ok 1) by (cbn [now w_ok]; lia).
  assert (H1 : forall k, now w_ok (S k) + 200 <= now w_ok (S (S k)))
    by (intros k; cbn [now w_ok]; lia).
  exact (conj H0 (conj H1
    (probes_bounded w_ok e_task_cmd 1000 (rounds 9) H0 H1))).
Defined.

Lemma no_time_no_probe_witness :
  let s := run w_ok e_task_cmd 0 [ServerExited; PauseElapsed] in
  0 <= now w_ok 1 - now w_ok 0 /\
  count is_probe (out s) = 0%nat /\
  count (is_spawn_at TestSite) (out s) = 0%nat /\
  forall c, finished s = Some (Exited c) -> c = 1.
Proof.
  intros s.
  assert (H : 0 <= now w_ok 1 - now w_ok 0) by (cbn [now w_ok]; lia).
  exact (conj H (no_time_no_probe w_ok e_task_cmd 0
                   [ServerExited; PauseElapsed] H)).
Defined.

Lemma cleanup_completes_witness :
  cleaned (run w_ok e_task_cmd 30000 [Signal]) = true /\
  (exists c, finished (run w_ok e_task_cmd 30000
                         ([Signal] ++ [ServerExited; PauseElapsed]))
             = Some (Exited c)) /\
  (exists c, finished (run w_ok e_task_cmd 30000
                         ([Signal] ++
                          [GraceElapsed; PauseElapsed; ServerExited]))
             = Some (Exited c)).
Proof.
  assert (C : cleaned (run w_ok e_task_cmd 30000 [Signal]) = true)
    by reflexivity.
  exact (conj C (cleanup_completes w_ok e_task_cmd 30000 [Signal] C)).
Defined.

Lemma second_cleanup_exits_at_once_witness :
  let sched := [FetchSettled true; Signal] in
  let s := run w_ok e_task_cmd 30000 sched in
  cleaned s = true /\ finished s = None /\ at_main s = AwaitTest /\
  finished (run w_ok e_task_cmd 30000 (sched ++ [TestExited true]))
  = Some (Exited 0).
Proof.
  intros sched s.
  assert (C : cleaned s = true) by reflexivity.
  assert (F : finished s = None) by reflexivity.
  assert (A : at_main s = AwaitTest) by reflexivity.
  exact (conj C (conj F (conj A
    (proj1 (proj2 (second_cleanup_exits_at_once w_ok e_task_cmd 30000
                     sched C F) true A))))).
Defined.

Lemma ready_probe_runs_tests_witness :
  let s := run w_ok e_task_cmd 30000 [] in
  let s' := run w_ok e_task_cmd 30000
              ([] ++ [FetchSettled true; TestExited false; ServerExited;
                      PauseElapsed]) in
  at_main s = AwaitFetch 0 0 /\ cleaned s = false /\ finished s = None /\
  spawnChild w_ok TestSite (TEST_CMD e_task_cmd) = Some 4243 /\
  finished s' = Some (Exited 1) /\
  count (is_spawn_at TestSite) (out s') = 1%nat /\
  count is_sigterm (out s') = 1%nat.
Proof.
  intros s s'.
  assert (A : at_main s = AwaitFetch 0 0) by reflexivity.
  assert (C : cleaned s = false) by reflexivity.
  assert (F : finished s = None) by reflexivity.
  assert (Q : spawnChild w_ok TestSite (TEST_CMD e_task_cmd) = Some 4243)
    by reflexivity.
  exact (conj A (conj C (conj F (conj Q
    (ready_probe_runs_tests w_ok e_task_cmd 30000 [] 0 0 4243 false
       A C F Q))))).
Defined.

Lemma sigterm_before_exit_witness :
  let s := run w_ok e_task_cmd 30000
             [FetchSettled true; TestExited true; ServerExited] in
  In (ESpawn ServerSite [js "deno"; js "task"; js "serve"] (Some 4242))
     (out s) /\
  finished s = Some (Exited 0) /\
  exists tr1 tr2, out s = tr1 ++ EKill 4242 SIGTERM :: tr2 ++ [EExit 0].
Proof.
  intros s.
  assert (H : In (ESpawn ServerSite [js "deno"; js "task"; js "serve"]
                    (Some 4242)) (out s)) by (left; reflexivity).
  assert (F : finished s = Some (Exited 0)) by reflexivity.
  exact (conj H (conj F (sigterm_before_exit w_ok e_task_cmd 30000
                   [FetchSettled true; TestExited true; ServerExited]
                   _ _ 0 H F))).
Defined.

End FlexibleMore.

(** ** More on the first runner *)

Module LegacyMore.
Import Legacy LegacyInv2 LegacyFacts.

Section Facts.

Variable w : World.

(** One case of a step, for [more_inv]. *)
Ltac legacy_finish :=
  constructor; simpl; intros; unfold count in *;
  rewrite ?List.filter_app, ?List.length_app in *; simpl in *;
  FlexibleFacts.tidy; subst; simpl in *;
  rewrite ?Nat.add_0_r, ?Nat.add_1_r in *;
  repeat match goal with
         | H : (_ <? _) = true |- _ => apply Z.ltb_lt in H
         | H : (1 <= _)%nat -> _ |- _ => specialize (H ltac:(lia))
         | H : _ <> _ -> _ |- _ => specialize (H ltac:(discriminate))
         end;
  FlexibleFacts.tidy;
  rewrite ?in_app_iff, ?List.last_last; simpl; repeat split;
  FlexibleFacts.close;
  try solve [exfalso; lia | exfalso; congruence].

Lemma legacy_more_start : more_inv w [] (runTests w).
Proof.
  unfold runTests, waitForServer_loop, exit. simpl.
  repeat (FlexibleFacts.break_goal; simpl; try discriminate).
  all: legacy_finish.
Qed.

Lemma legacy_more_step (sched : list input) (s : state) (i : input) :
  more_inv w sched s -> more_inv w (sched ++ [i]) (step w s i).
Proof.
  intros M. destruct s as [sp se pc fin o].
  unfold step; simpl.
  destruct M as [M1 M2 M3 M4 M5 M6 M7 M8 M9]; simpl in *.
  destruct fin as [o'|].
  { constructor; simpl; auto.
    - intros H. destruct (M3 H) as [?|(? & ? & ? & ? & ? & ?)];
        [now left | right]. rewrite in_app_iff. auto 10.
    - intros H; destruct (M4 H) as (? & ? & ? & ?).
      rewrite in_app_iff; auto.
    - intros; rewrite in_app_iff; auto.
    - intros H; destruct (M9 H). rewrite in_app_iff; auto. }
  destruct i, pc; simpl.
  all: unfold finally, waitForServer_loop, exit; simpl.
  all: repeat (FlexibleFacts.break_goal; simpl; try discriminate).
  all: subst.
  all: legacy_finish.
Qed.

Lemma legacy_more_run (sched : list input) : more_inv w sched (run w sched).
Proof.
  induction sched as [|i sched IH] using rev_ind;
    [apply legacy_more_start|].
  unfold run. rewrite fold_left_app. simpl.
  now apply legacy_more_step.
Qed.

(** X19: the first runner ends with code 0 only after a probe that
    succeeded, a test run that succeeded and the end of the server,
    which it signalled once. *)
Theorem first_runner_exit_zero (sched : list input) :
  let s := run w sched in
  finished s = Some (Exited 0) ->
  In (FetchSettled true) sched /\ In (TestExited true) sched /\
  In ServerExited sched /\ count is_sigterm (out s) = 1%nat /\
  count is_kill (out s) = 1%nat.
Proof.
  intros s F. pose proof (legacy_more_run sched) as M. fold s in M.
  destruct (lm_zero _ _ _ M F) as [A S0].
  destruct (lm_status _ _ _ M A) as (K1 & K2 & K3 & _).
  pose proof (lm_test_pc _ _ _ M) as P. rewrite A in P.
  repeat split; auto. now apply (lm_tested _ _ _ M).
Qed.

(** X20: the first runner signals its server once at most, with SIGTERM,
    and only after the tests succeeded; it spawns the server and the
    tests once at most each, and the tests only after a probe that
    succeeded. *)
Theorem first_runner_signals_after_success (sched : list input) :
  let s := run w sched in
  (count is_kill (out s) <= 1)%nat /\
  count is_sigterm (out s) = count is_kill (out s) /\
  ((1 <= count is_kill (out s))%nat -> In (TestExited true) sched) /\
  (count (is_spawn_at ServerSite) (out s) <= 1)%nat /\
  (count (is_spawn_at TestSite) (out s) <= 1)%nat /\
  ((1 <= count (is_spawn_at TestSite) (out s))%nat ->
   In (FetchSettled true) sched).
Proof.
  intros s. pose proof (legacy_more_run sched) as M. fold s in M.
  pose proof (lm_before _ _ _ M) as B. pose proof (lm_status _ _ _ M) as S0.
  pose proof (lm_once _ _ _ M) as O.
  assert (D : at_pc s = AwaitStatus \/ at_pc s <> AwaitStatus)
    by (destruct (at_pc s); auto; right; discriminate).
  assert (K : count is_kill (out s) = 0%nat /\
              count is_sigterm (out s) = 0%nat \/
              count is_kill (out s) = 1%nat /\
              count is_sigterm (out s) = 1%nat /\
              In (TestExited true) sched).
  { destruct D as [D|D].
    - destruct (S0 D) as (? & ? & ? & _). auto.
    - destruct (B D) as [?|(_ & _ & ? & ? & ? & _)]; auto. }
  repeat split; try tauto.
  - destruct K as [(-> & _)|(-> & _)]; lia.
  - destruct K as [(-> & ->)|(-> & -> & _)]; reflexivity.
  - intros L. destruct K as [(K & _)|(_ & _ & K)]; [lia | exact K].
  - apply (lm_tested _ _ _ M).
Qed.

(** X18: when the first runner ends with code 1, it has sent no signal
    to a running server.  Either no signal was sent at all: every
    [Deno.exit(1)] (a failed test, a timeout of the probes, an error)
    ends the process before the [finally] block runs.  Or the tests had
    succeeded and the server's status had resolved already, so that the
    [kill] of line 81 threw; then code 1 comes from that uncaught error
    and [Deno.exit] was never called. *)
Theorem failure_signals_no_running_server (sched : list input) :
  let s := run w sched in
  finished s = Some (Exited 1) ->
  (In (EExit 1) (out s) -> count is_kill (out s) = 0%nat) /\
  (count is_kill (out s) = 0%nat \/
   server_exited s = true /\ In (TestExited true) sched /\
   ~ In (EExit 1) (out s) /\
   exists p, serverProcess s = Some p /\
             List.last (out s) EProbe = EKill p SIGTERM).
Proof.
  intros s F. pose proof (legacy_more_run sched) as M. fold s in M.
  split; [intros H; apply (lm_exit _ _ _ M H)|].
  assert (D : at_pc s <> AwaitStatus).
  { intros D. destruct (lm_status _ _ _ M D) as (_ & _ & _ & N).
    contradiction. }
  destruct (lm_before _ _ _ M D) as [(K & _)|(_ & E & K & _ & Ht & L)];
    [now left | right].
  repeat split; auto.
  - intros H. destruct (lm_exit _ _ _ M H) as [H0 _]. congruence.
  - destruct (serverProcess s) as [p|]; [now exists p | contradiction].
Qed.

(** X21: when every delay of line 34 takes 1000 ms at least on the
    clock, and the clock does not go back before the first probe, the
    first runner makes 30 probes at most. *)
Theorem first_runner_probes_bounded (sched : list input) :
  now w 0 <= now w 1 ->
  (forall k, now w (S k) + 1000 <= now w (S (S k))) ->
  (count is_probe (out (run w sched)) <= 30)%nat.
Proof.
  intros H0 H1. pose proof (legacy_more_run sched) as M.
  destruct (lm_passed _ _ _ M) as [E|E]; [lia|].
  destruct (count is_probe (out (run w sched))) as [|k]; [lia|].
  assert (G : forall n, now w 0 + 1000 * Z.of_nat n <= now w (S n)).
  { induction n as [|n IH]; [lia|]. specialize (H1 n). lia. }
  specialize (G k). unfold SERVER_TIMEOUT in E. lia.
Qed.

End Facts.

Lemma failure_signals_no_running_server_witness :
  let sched := [FetchSettled true; ServerExited; TestExited true] in
  let s := run w_ok sched in
  finished s = Some (Exited 1) /\
  (In (EExit 1) (out s) -> count is_kill (out s) = 0%nat) /\
  (count is_kill (out s) = 0%nat \/
   server_exited s = true /\ In (TestExited true) sched /\
   ~ In (EExit 1) (out s) /\
   exists p, serverProcess s = Some p /\
             List.last (out s) EProbe = EKill p SIGTERM).
Proof.
  intros sched s.
  assert (F : finished s = Some (Exited 1)) by reflexivity.
  exact (conj F (failure_signals_no_running_server w_ok sched F)).
Defined.

Lemma first_runner_exit_zero_witness :
  let sched := [FetchSettled false; BackoffElapsed; FetchSettled true;
                TestExited true; ServerExited] in
  let s := run w_ok sched in
  finished s = Some (Exited 0) /\
  In (FetchSettled true) sched /\ In (TestExited true) sched /\
  In ServerExited sched /\ count is_sigterm (out s) = 1%nat /\
  count is_kill (out s) = 1%nat.
Proof.
  intros sched s.
  assert (F : finished s = Some (Exited 0)) by reflexivity.
  exact (conj F (first_runner_exit_zero w_ok sched F)).
Defined.

Lemma first_runner_probes_bounded_witness :
  let sched := [FetchSettled false; BackoffElapsed; FetchSettled false;
                BackoffElapsed] in
  now w_slow 0 <= now w_slow 1 /\
  (forall k, now w_slow (S k) + 1000 <= now w_slow (S (S k))) /\
  (count is_probe (out (run w_slow sched)) <= 30)%nat.
Proof.
  intros sched.
  assert (H0 : now w_slow 0 <= now w_slow 1) by (cbn [now w_slow]; lia).
  assert (H1 : forall k, now w_slow (S k) + 1000 <= now w_slow (S (S k)))
    by (intros k; cbn [now w_slow]; lia).
  exact (conj H0 (conj H1 (first_runner_probes_bounded w_slow sched H0 H1))).
Defined.

End LegacyMore.
